(** * PicoTorrent: the embedded WebSocket control server

    A shallow embedding of [src/client/ws/websocket_server.cpp]: the
    constructor (token provisioning), [start], the session callbacks
    [on_open] / [on_close], the admission callback [on_validate] and the
    TLS context builder [on_tls_init]. It is followed by the command-line
    and plugin handling of [src/picotorrent/application.cpp] and by the
    logic of the add-torrent dialog,
    [src/picotorrent/ui/dialogs/addtorrentdialog.cpp].

    The process-wide collaborators the code talks to (the configuration
    singleton, the file system, the random sources) are gathered in one
    [world] value that is threaded through a small state-and-exception
    monad; every write to a collaborator is also appended to a journal so
    that "no write happened" can be stated. *)

From Stdlib Require Import ZArith String Ascii List Lia.
From stdpp Require Import gmap strings list fin_maps.

Local Open Scope string_scope.
Local Open Scope Z_scope.

(** ** std::string *)

Module std_string.

(** [std::string::empty]. *)
Definition empty (s : string) : bool :=
  match s with
  | EmptyString => true
  | String _ _ => false
  end.

(** [std::string::compare]: the characters of the common prefix are
    compared as unsigned bytes; when the shorter string is a prefix of the
    longer one the sign of the length difference decides. *)
Fixpoint compare (a b : string) : Z :=
  match a, b with
  | EmptyString, EmptyString => 0
  | EmptyString, String _ _ => -1
  | String _ _, EmptyString => 1
  | String x a', String y b' =>
      if (N_of_ascii x <? N_of_ascii y)%N then -1
      else if (N_of_ascii y <? N_of_ascii x)%N then 1
      else compare a' b'
  end.

(** [std::tolower] in the "C" locale. *)
Definition tolower (c : ascii) : ascii :=
  let n := N_of_ascii c in
  if ((65 <=? n) && (n <=? 90))%N then ascii_of_N (n + 32) else c.

Fixpoint to_lower (s : string) : string :=
  match s with
  | EmptyString => EmptyString
  | String c s' => String (tolower c) (to_lower s')
  end.

(** Equality of header names, which HTTP compares without regard to
    case. *)
Definition iequals (a b : string) : bool :=
  String.eqb (to_lower a) (to_lower b).

End std_string.

(** ** Results of calls that may throw *)

Inductive exception : Type :=
  | bad_connection
  | system_error (what : string).

Inductive outcome (A : Type) : Type :=
  | Returns (a : A)
  | Throws (e : exception).

Arguments Returns {A} a.
Arguments Throws {A} e.

(** ** The collaborators: configuration, file system, random sources *)

(** Modelled from the spec: the configuration singleton
    ([picotorrent/client/configuration.hpp] is not among the sources), "a
    process-wide settings store with get/set semantics" whose consumed
    surface is the five [websocket_*] settings. *)
Record configuration : Type := {
  websocket_access_token : string;
  websocket_certificate_file : string;
  websocket_certificate_password : string;
  websocket_cipher_list : string;
  websocket_listen_port : Z
}.

Definition set_websocket_access_token (cfg : configuration) (token : string)
  : configuration :=
  {| websocket_access_token := token;
     websocket_certificate_file := websocket_certificate_file cfg;
     websocket_certificate_password := websocket_certificate_password cfg;
     websocket_cipher_list := websocket_cipher_list cfg;
     websocket_listen_port := websocket_listen_port cfg |}.

(** What the server writes outside of itself. *)
Inductive io_event : Type :=
  | config_write (key value : string)
  | file_write (path data : string).

(** Everything outside the server object: the configuration singleton, the
    files on disk (raw bytes by path), the state of the random source, and
    the journal of writes performed so far (oldest first). *)
Record world : Type := {
  config : configuration;
  files : gmap string string;
  entropy : N;
  journal : list io_event
}.

(** *** The monad of calls that read and write the world and may throw *)

Definition IO (A : Type) : Type := world -> outcome A * world.

Definition ret {A : Type} (a : A) : IO A := fun w => (Returns a, w).

Definition throw {A : Type} (e : exception) : IO A := fun w => (Throws e, w).

Definition bind {A B : Type} (m : IO A) (k : A -> IO B) : IO B :=
  fun w =>
    match m w with
    | (Returns a, w') => k a w'
    | (Throws e, w') => (Throws e, w')
    end.

Declare Scope io_scope.
Delimit Scope io_scope with io.
Notation "x <- m ;; k" := (bind m (fun x => k))
  (at level 100, m at next level, right associativity) : io_scope.
Notation "m ;;; k" := (bind m (fun _ => k))
  (at level 100, right associativity) : io_scope.

(** [configuration::instance()] followed by a getter. *)
Definition cfg_get {A : Type} (field : configuration -> A) : IO A :=
  fun w => (Returns (field (config w)), w).

(** [cfg.set_websocket_access_token]: the setting is stored, which is a
    persistence write. *)
Definition cfg_set_websocket_access_token (token : string) : IO unit :=
  fun w =>
    (Returns tt,
     {| config := set_websocket_access_token (config w) token;
        files := files w;
        entropy := entropy w;
        journal := journal w ++ [config_write "websocket_access_token" token]
     |}).

(** Modelled from the spec: [pal::file_exists] ([picotorrent/core/pal.hpp]
    is not among the sources), the "existence check" of the file system
    collaborator. *)
Definition pal_file_exists (path : string) : IO bool :=
  fun w =>
    (Returns match files w !! path with Some _ => true | None => false end, w).

(** [std::ofstream co(path, std::ios::binary); co.write(&v[0], v.size());]
    and the end of [co]'s scope. Whether the stream opens is up to the file
    system, [opens path]: when it does, the file is created or truncated
    and holds exactly the bytes written; when it does not, the stream is in
    a failed state, [write] does nothing and no file appears. The code does
    not test the stream, so the call goes on in either case. *)
Definition ofstream_write (opens : string -> bool) (path data : string)
  : IO unit :=
  fun w =>
    if opens path then
      (Returns tt,
       {| config := config w;
          files := <[path := data]> (files w);
          entropy := entropy w;
          journal := journal w ++ [file_write path data] |})
    else (Returns tt, w).

(** A call that draws from the random source. *)
Definition draw {A : Type} (gen : N -> A * N) : IO A :=
  fun w =>
    let (a, e') := gen (entropy w) in
    (Returns a,
     {| config := config w;
        files := files w;
        entropy := e';
        journal := journal w |}).

(** ** The WebSocket endpoint as the server sees it *)

(** A [websocketpp::connection_hdl] is a weak pointer; handles are ordered
    and compared by the identity of the connection they point to. *)
Abbreviation connection_hdl := positive (only parsing).

(** The handshake request of a connection: its header fields in the order
    received. *)
Record connection : Type := {
  request_headers : list (string * string)
}.

(** Header lookup by name; HTTP header names are case-insensitive. *)
Fixpoint find_header (hs : list (string * string)) (key : string)
  : option string :=
  match hs with
  | nil => None
  | (name, value) :: hs' =>
      if std_string.iequals name key then Some value
      else find_header hs' key
  end.

(** [connection::get_request_header]: the value of the header, or the empty
    string when the request has no such header. *)
Definition get_request_header (con : connection) (key : string) : string :=
  match find_header (request_headers con) key with
  | Some value => value
  | None => ""
  end.

(** The endpoint [srv_]: the connections it currently manages. *)
Record websocketpp_server : Type := {
  endpoint_connections : gmap positive connection
}.

(** [endpoint::get_con_from_hdl]: throws when the handle no longer refers to
    a connection. *)
Definition get_con_from_hdl (srv : websocketpp_server) (hdl : connection_hdl)
  : outcome connection :=
  match endpoint_connections srv !! hdl with
  | Some con => Returns con
  | None => Throws bad_connection
  end.

(** ** The TLS context ([boost::asio::ssl::context]) *)

Inductive ssl_method : Type := sslv23.

Inductive password_callback : Type := get_certificate_password_of_this.

Record ssl_context (DH : Type) : Type := {
  method : ssl_method;
  options : Z;
  password_cb : option password_callback;
  certificate_chain : option string;
  private_key : option string;
  tmp_dh : option DH;
  cipher_list : option string
}.

Arguments method {DH} _.
Arguments options {DH} _.
Arguments password_cb {DH} _.
Arguments certificate_chain {DH} _.
Arguments private_key {DH} _.
Arguments tmp_dh {DH} _.
Arguments cipher_list {DH} _.

(** [std::make_shared<ssl::context>(m)]. *)
Definition make_context {DH : Type} (m : ssl_method) : ssl_context DH :=
  {| method := m; options := 0; password_cb := None;
     certificate_chain := None; private_key := None;
     tmp_dh := None; cipher_list := None |}.

(** [ctx->set_options(o)] adds [o] to the options already set. *)
Definition set_options {DH : Type} (ctx : ssl_context DH) (o : Z)
  : ssl_context DH :=
  {| method := method ctx; options := Z.lor (options ctx) o;
     password_cb := password_cb ctx;
     certificate_chain := certificate_chain ctx;
     private_key := private_key ctx;
     tmp_dh := tmp_dh ctx; cipher_list := cipher_list ctx |}.

Definition set_password_callback {DH : Type} (ctx : ssl_context DH)
  (cb : password_callback) : ssl_context DH :=
  {| method := method ctx; options := options ctx;
     password_cb := Some cb;
     certificate_chain := certificate_chain ctx;
     private_key := private_key ctx;
     tmp_dh := tmp_dh ctx; cipher_list := cipher_list ctx |}.

Definition with_certificate_chain {DH : Type} (ctx : ssl_context DH)
  (pem : string) : ssl_context DH :=
  {| method := method ctx; options := options ctx;
     password_cb := password_cb ctx;
     certificate_chain := Some pem;
     private_key := private_key ctx;
     tmp_dh := tmp_dh ctx; cipher_list := cipher_list ctx |}.

Definition with_private_key {DH : Type} (ctx : ssl_context DH)
  (pem : string) : ssl_context DH :=
  {| method := method ctx; options := options ctx;
     password_cb := password_cb ctx;
     certificate_chain := certificate_chain ctx;
     private_key := Some pem;
     tmp_dh := tmp_dh ctx; cipher_list := cipher_list ctx |}.

(** [SSL_CTX_set_tmp_dh]. *)
Definition SSL_CTX_set_tmp_dh {DH : Type} (ctx : ssl_context DH) (dh : DH)
  : ssl_context DH :=
  {| method := method ctx; options := options ctx;
     password_cb := password_cb ctx;
     certificate_chain := certificate_chain ctx;
     private_key := private_key ctx;
     tmp_dh := Some dh; cipher_list := cipher_list ctx |}.

(** [SSL_CTX_set_cipher_list]. *)
Definition SSL_CTX_set_cipher_list {DH : Type} (ctx : ssl_context DH)
  (str : string) : ssl_context DH :=
  {| method := method ctx; options := options ctx;
     password_cb := password_cb ctx;
     certificate_chain := certificate_chain ctx;
     private_key := private_key ctx;
     tmp_dh := tmp_dh ctx; cipher_list := Some str |}.

(** An option flag is set when all of its bits are. *)
Definition option_set (opts flag : Z) : Prop := Z.land opts flag = flag.

(** ** The server object *)

(** [std::thread bg_]: either not a thread, or a joinable thread running
    [websocket_server::run]. *)
Inductive thread : Type :=
  | not_a_thread
  | joinable_run.

(** Modelled from the spec: the data members of the class are declared in
    [picotorrent/client/ws/websocket_server.hpp], which is not among the
    sources; [connections_] is the session registry, "a set of live
    connection handles, insertion order irrelevant, uniqueness required". *)
Record websocket_server : Type := {
  srv_ : websocketpp_server;
  bg_ : thread;
  configured_token_ : string;
  connections_ : gset positive
}.

Definition DEFAULT_TOKEN_SIZE : nat := 20.

Definition token_header : string := "X-PicoTorrent-Token".

(** [websocket_server::on_validate]. *)
Definition on_validate (this : websocket_server) (hdl : connection_hdl)
  : outcome bool :=
  match get_con_from_hdl (srv_ this) hdl with
  | Throws e => Throws e
  | Returns connection =>
      let token := get_request_header connection token_header in
      if std_string.empty token then Returns false
      else Returns (std_string.compare (configured_token_ this) token =? 0)
  end.

(** [websocket_server::on_close]: [connections_.erase(hdl)]. *)
Definition on_close (this : websocket_server) (hdl : connection_hdl)
  : websocket_server :=
  {| srv_ := srv_ this; bg_ := bg_ this;
     configured_token_ := configured_token_ this;
     connections_ := connections_ this ∖ {[hdl]} |}.


(** [websocket_server::on_open]: [connections_.insert(hdl)]. *)
Definition on_open (this : websocket_server) (hdl : connection_hdl)
  : websocket_server :=
  {| srv_ := srv_ this; bg_ := bg_ this;
     configured_token_ := configured_token_ this;
     connections_ := {[hdl]} ∪ connections_ this |}.

(** The session events the endpoint delivers to the registry callbacks. *)
Inductive session_event : Type :=
  | opened (hdl : connection_hdl)
  | closed (hdl : connection_hdl).

Definition deliver (this : websocket_server) (ev : session_event)
  : websocket_server :=
  match ev with
  | opened hdl => on_open this hdl
  | closed hdl => on_close this hdl
  end.

Definition deliver_all (this : websocket_server) (evs : list session_event)
  : websocket_server :=
  fold_left deliver evs this.

(** How often a handle is held by the registry. *)
Definition registry_count (this : websocket_server) (hdl : connection_hdl)
  : nat :=
  count_occ Pos.eq_dec (elements (connections_ this)) hdl.

(** [websocket_server::start]: [bg_] is assigned a new thread running
    [run]. Assigning to a [std::thread] that is still joinable calls
    [std::terminate], rendered as [None]. *)
Definition start (this : websocket_server) : option websocket_server :=
  match bg_ this with
  | not_a_thread =>
      Some {| srv_ := srv_ this; bg_ := joinable_run;
              configured_token_ := configured_token_ this;
              connections_ := connections_ this |}
  | joinable_run => None
  end.

(** [websocket_server::get_certificate_password]. *)
Definition get_certificate_password : IO string :=
  cfg_get websocket_certificate_password.

(** Reading a file: its bytes, if it exists. *)
Definition read_file (path : string) : IO (option string) :=
  fun w => (Returns (files w !! path), w).

(** *** The session registry over a run of events *)

Definition concerns (h : connection_hdl) (ev : session_event) : bool :=
  match ev with
  | opened hdl => Pos.eqb hdl h
  | closed hdl => Pos.eqb hdl h
  end.

(** The last event of [evs] that is about the handle [h], if there is
    one. *)
Fixpoint last_event_for (h : connection_hdl) (evs : list session_event)
  : option session_event :=
  match evs with
  | nil => None
  | ev :: rest =>
      match last_event_for h rest with
      | Some later => Some later
      | None => if concerns h ev then Some ev else None
      end
  end.

(** ** More of std::string *)

Module cxx.

(** The string without its first [n] characters. *)
Fixpoint drop (n : nat) (s : string) : string :=
  match n, s with
  | O, _ => s
  | S _, EmptyString => EmptyString
  | S n', String _ s' => drop n' s'
  end.

(** [str] occurs in [s] at position [i]. *)
Definition occurs_at (s str : string) (i : nat) : bool :=
  String.prefix str (drop i s).

(** The last position not after [i] at which [str] occurs in [s]. *)
Fixpoint rfind_from (s str : string) (i : nat) : option nat :=
  if occurs_at s str i then Some i
  else match i with
       | O => None
       | S i' => rfind_from s str i'
       end.

(** [s.rfind(str, pos)]: the last position, not after [pos], at which
    [str] occurs in [s]; [None] is [npos]. *)
Definition rfind (s str : string) (pos : nat) : option nat :=
  if (String.length str <=? String.length s)%nat
  then rfind_from s str (Nat.min pos (String.length s - String.length str))
  else None.

(** [s.substr(pos, n)] for a [pos] that is not past the end of [s]. *)
Definition substr (s : string) (pos n : nat) : string :=
  String.substring pos n s.

End cxx.

(** ** The application object ([src/picotorrent/application.cpp]) *)

Module Application.

(** The command-line options collected by [OnCmdLineParsed]. *)
Record options : Type := {
  files : list string;
  magnets : list string
}.

(** How [OnCmdLineParsed] ended: it returned [result], or it left by an
    exception; in both cases with the options collected up to then. *)
Inductive parsed : Type :=
  | returned (result : bool) (m_options : options)
  | thrown (m_options : options).

Section CommandLine.

(** [std::filesystem::absolute(arg).string()]; [None] when [absolute]
    throws [std::filesystem::filesystem_error]. *)
Variable absolute : string -> option string.

(** One round of the loop of [OnCmdLineParsed], for the parameter [arg]
    (already converted to a [std::string]); [None] when the round left by
    the exception of [absolute], before anything was appended. *)
Definition OnCmdLineParsed_param (m_options : options) (arg : string)
  : option options :=
  if match cxx.rfind arg "magnet:?xt" 0 with
     | Some O => true
     | _ => false
     end
  then Some {| files := files m_options;
               magnets := magnets m_options ++ [arg] |}
  else match absolute arg with
       | Some path =>
           Some {| files := files m_options ++ [path];
                   magnets := magnets m_options |}
       | None => None
       end.

(** [Application::OnCmdLineParsed], for the parameters of the parser in
    their order. The function catches nothing, so an exception of
    [absolute] ends it. *)
Fixpoint OnCmdLineParsed (m_options : options) (params : list string)
  : parsed :=
  match params with
  | nil => returned true m_options
  | arg :: rest =>
      match OnCmdLineParsed_param m_options arg with
      | Some m_options' => OnCmdLineParsed m_options' rest
      | None => thrown m_options
      end
  end.

End CommandLine.

(** An entry of the application directory: [p.path().string()],
    [p.path().filename().string()] and [p.path().extension()]. *)
Record directory_entry : Type := {
  path : string;
  filename : string;
  extension : string
}.

Section Plugins.

(** The plugins and [API::IPlugin::Load], which answers [nullptr]
    ([None]) when the library is not a plugin. *)
Variable IPlugin : Type.
Variable Load : directory_entry -> option IPlugin.

(** One round of the plugin loop of [Application::OnInit]. *)
Definition load_plugin (m_plugins : list IPlugin) (p : directory_entry)
  : list IPlugin :=
  if negb (String.eqb (extension p) ".dll") then m_plugins
  else if (String.length (filename p) <? 6)%nat then m_plugins
  else if negb (String.eqb (cxx.substr (filename p) 0 6) "Plugin")
  then m_plugins
  else match Load p with
       | Some plugin => m_plugins ++ [plugin]
       | None => m_plugins
       end.

(** The plugin loop of [Application::OnInit] over the entries of the
    application directory, in the order the directory iterator gives
    them. *)
Definition load_plugins (m_plugins : list IPlugin)
  (entries : list directory_entry) : list IPlugin :=
  fold_left load_plugin entries m_plugins.

End Plugins.

End Application.

(** A command-line parameter that is a magnet link. *)
Definition is_magnet (arg : string) : bool := String.prefix "magnet:?xt" arg.

(** [std::filesystem::absolute] does not throw for any of the parameters
    that are not magnet links. *)
Definition paths_resolve (absolute : string -> option string)
  (params : list string) : Prop :=
  Forall (fun arg => is_magnet arg = false -> is_Some (absolute arg)) params.

(** The options after the parameters [params] have been sorted into
    them. *)
Definition sorted_into (absolute : string -> option string)
  (o : Application.options) (params : list string) : Application.options :=
  {| Application.files :=
       (Application.files o
        ++ omap absolute (List.filter (fun a => negb (is_magnet a)) params))%list;
     Application.magnets :=
       (Application.magnets o ++ List.filter is_magnet params)%list |}.

(** A directory entry that the plugin loop hands to the loader. *)
Definition plugin_candidate (p : Application.directory_entry) : bool :=
  String.eqb (Application.extension p) ".dll"
  && String.prefix "Plugin" (Application.filename p).

(** ** libtorrent, as far as the add-torrent dialog uses it *)

Module lt.

(** What the dialog takes from the library's headers: the torrent flags
    [lt::torrent_flags::*] (values of a 64-bit flag type), the download
    priorities, and the text that [operator<<] writes for a digest. *)
Class library : Type := {
  sequential_download : Z;
  auto_managed : Z;
  paused : Z;
  dont_download : Z;
  low_priority : Z;
  default_priority : Z;
  top_priority : Z;
  digest_text : string -> string
}.

(** A digest is all zeros when no byte of it is set. *)
Fixpoint is_all_zeros (digest : string) : bool :=
  match digest with
  | EmptyString => true
  | String c rest => (N_of_ascii c =? 0)%N && is_all_zeros rest
  end.

(** [lt::info_hash_t]: the v1 and the v2 digest, as raw bytes. *)
Record info_hash_t : Type := {
  v1 : string;
  v2 : string
}.

Definition has_v1 (h : info_hash_t) : bool := negb (is_all_zeros (v1 h)).

Definition has_v2 (h : info_hash_t) : bool := negb (is_all_zeros (v2 h)).

(** [operator==] on [info_hash_t]. *)
Definition info_hash_eqb (a b : info_hash_t) : bool :=
  String.eqb (v1 a) (v1 b) && String.eqb (v2 a) (v2 b).

Module torrent_info.

(** [lt::torrent_info], through the accessors the dialog calls. *)
Record t : Type := {
  name : string;
  total_size : Z;
  comment : string;
  info_hashes : info_hash_t
}.

End torrent_info.

Module add_torrent_params.

(** [lt::add_torrent_params], the members the dialog reads or writes. *)
Record t : Type := {
  ti : option torrent_info.t;
  name : string;
  info_hashes : info_hash_t;
  save_path : string;
  flags : Z;
  file_priorities : list Z
}.

Definition with_ti (p : t) (x : option torrent_info.t) : t :=
  {| ti := x; name := name p; info_hashes := info_hashes p;
     save_path := save_path p; flags := flags p;
     file_priorities := file_priorities p |}.

Definition with_save_path (p : t) (x : string) : t :=
  {| ti := ti p; name := name p; info_hashes := info_hashes p;
     save_path := x; flags := flags p;
     file_priorities := file_priorities p |}.

Definition with_flags (p : t) (x : Z) : t :=
  {| ti := ti p; name := name p; info_hashes := info_hashes p;
     save_path := save_path p; flags := x;
     file_priorities := file_priorities p |}.

Definition with_file_priorities (p : t) (x : list Z) : t :=
  {| ti := ti p; name := name p; info_hashes := info_hashes p;
     save_path := save_path p; flags := flags p;
     file_priorities := x |}.

End add_torrent_params.

(** [~f] on the 64-bit flag type. *)
Definition complement (f : Z) : Z := Z.land (Z.lnot f) (Z.ones 64).

(** [(flags & f) == f]. *)
Definition has_flag (flags f : Z) : bool := Z.land flags f =? f.

End lt.

(** ** The add-torrent dialog
    ([src/picotorrent/ui/dialogs/addtorrentdialog.cpp]) *)

(** How a call ended, with the state it left: it ran to its end, or it
    left by an exception ([std::out_of_range] from [at], or
    [std::length_error] from [resize]). *)
Inductive run (A : Type) : Type :=
  | completed (state : A)
  | threw (state : A).

Arguments completed {A} state.
Arguments threw {A} state.

Module AddTorrentDialog.

(** The calls the dialog makes on its file model and file view. *)
Inductive files_call : Type :=
  | RebuildTree (ti : lt.torrent_info.t)
  | UpdatePriorities (file_priorities : list Z)
  | Expand_root
  | Cleared.

(** The check marks of the priority menu. *)
Record priority_menu : Type := {
  maximum : bool;
  normal : bool;
  low : bool;
  do_not_download : bool
}.

(** The dialog: the torrents it was given, the entries of the torrent
    chooser and its selection ([wxNOT_FOUND], -1, when there is none), what
    the labels and inputs show, and the calls received so far by the file
    model. *)
Record dialog : Type := {
  m_params : list lt.add_torrent_params.t;
  m_torrents : list string;
  selection : Z;
  m_torrentName : string;
  m_torrentSize : string;
  m_torrentInfoHash : string;
  m_torrentComment : string;
  m_torrentSavePath : string;
  m_sequentialDownload : bool;
  m_startTorrent : bool;
  m_filesModel : list files_call
}.

Definition with_m_params (d : dialog) (x : list lt.add_torrent_params.t)
  : dialog :=
  {| m_params := x; m_torrents := m_torrents d; selection := selection d;
     m_torrentName := m_torrentName d; m_torrentSize := m_torrentSize d;
     m_torrentInfoHash := m_torrentInfoHash d;
     m_torrentComment := m_torrentComment d;
     m_torrentSavePath := m_torrentSavePath d;
     m_sequentialDownload := m_sequentialDownload d;
     m_startTorrent := m_startTorrent d;
     m_filesModel := m_filesModel d |}.

Definition with_m_torrents (d : dialog) (x : list string) : dialog :=
  {| m_params := m_params d; m_torrents := x; selection := selection d;
     m_torrentName := m_torrentName d; m_torrentSize := m_torrentSize d;
     m_torrentInfoHash := m_torrentInfoHash d;
     m_torrentComment := m_torrentComment d;
     m_torrentSavePath := m_torrentSavePath d;
     m_sequentialDownload := m_sequentialDownload d;
     m_startTorrent := m_startTorrent d;
     m_filesModel := m_filesModel d |}.

Definition with_m_filesModel (d : dialog) (x : list files_call) : dialog :=
  {| m_params := m_params d; m_torrents := m_torrents d;
     selection := selection d;
     m_torrentName := m_torrentName d; m_torrentSize := m_torrentSize d;
     m_torrentInfoHash := m_torrentInfoHash d;
     m_torrentComment := m_torrentComment d;
     m_torrentSavePath := m_torrentSavePath d;
     m_sequentialDownload := m_sequentialDownload d;
     m_startTorrent := m_startTorrent d;
     m_filesModel := x |}.

(** [m_params.at(idx)] for an [int] index: the index is converted to
    [size_t], so that a negative one is out of range as well. *)
Definition at_int {A : Type} (v : list A) (idx : Z) : option A :=
  if idx <? 0 then None else v !! Z.to_nat idx.

Section Dialog.

Context {L : lt.library}.

(** [Utils::toHumanFileSize]. *)
Variable toHumanFileSize : Z -> string.

(** [m_filesModel->GetFileIndices(items)], over the items of the file
    view. *)
Variable wxDataViewItem : Type.
Variable GetFileIndices : list wxDataViewItem -> list Z.

Definition GetTorrentDisplayName (params : lt.add_torrent_params.t)
  : string :=
  match lt.add_torrent_params.ti params with
  | Some ti => lt.torrent_info.name ti
  | None =>
      if (0 <? String.length (lt.add_torrent_params.name params))%nat
      then lt.add_torrent_params.name params
      else
        let hashes := lt.add_torrent_params.info_hashes params in
        (if lt.has_v2 hashes then lt.digest_text (lt.v2 hashes) else "")
        ++ (if lt.has_v1 hashes then lt.digest_text (lt.v1 hashes) else "")
  end.

Definition GetTorrentDisplaySize (params : lt.add_torrent_params.t)
  : string :=
  match lt.add_torrent_params.ti params with
  | Some ti => toHumanFileSize (lt.torrent_info.total_size ti)
  | None => "-"
  end.

Definition GetTorrentDisplayInfoHash (params : lt.add_torrent_params.t)
  : string :=
  match lt.add_torrent_params.ti params with
  | Some ti =>
      let hashes := lt.torrent_info.info_hashes ti in
      if lt.has_v2 hashes then lt.digest_text (lt.v2 hashes)
      else lt.digest_text (lt.v1 hashes)
  | None =>
      let hashes := lt.add_torrent_params.info_hashes params in
      if lt.has_v1 hashes || lt.has_v2 hashes then
        if lt.has_v2 hashes then lt.digest_text (lt.v2 hashes)
        else lt.digest_text (lt.v1 hashes)
      else "-"
  end.

Definition GetTorrentDisplayComment (params : lt.add_torrent_params.t)
  : string :=
  match lt.add_torrent_params.ti params with
  | Some ti => lt.torrent_info.comment ti
  | None => "-"
  end.

(** The value [Load] gives the start check box. *)
Definition start_shown (flags : Z) : bool :=
  let isPaused :=
    lt.has_flag flags lt.paused && negb (lt.has_flag flags lt.auto_managed) in
  negb isPaused.

(** [AddTorrentDialog::Load]. Setting the save path input raises the text
    event of that input, whose handler stores the same path back into the
    same parameters. *)
Definition Load (d : dialog) (index : nat) : run dialog :=
  match m_params d !! index with
  | None => threw d
  | Some params =>
      completed
        {| m_params := m_params d;
           m_torrents := m_torrents d;
           selection := selection d;
           m_torrentName := GetTorrentDisplayName params;
           m_torrentSize := GetTorrentDisplaySize params;
           m_torrentInfoHash := GetTorrentDisplayInfoHash params;
           m_torrentComment := GetTorrentDisplayComment params;
           m_torrentSavePath := lt.add_torrent_params.save_path params;
           m_sequentialDownload :=
             lt.has_flag (lt.add_torrent_params.flags params)
               lt.sequential_download;
           m_startTorrent := start_shown (lt.add_torrent_params.flags params);
           m_filesModel :=
             m_filesModel d
             ++ match lt.add_torrent_params.ti params with
                | Some ti =>
                    [RebuildTree ti;
                     UpdatePriorities
                       (lt.add_torrent_params.file_priorities params);
                     Expand_root]
                | None => [Cleared]
                end |}
  end.

(** A handler that changes the selected parameters: [m_params.at(idx)]
    for the selection of the chooser, then the change [f]. *)
Definition on_selected
  (f : lt.add_torrent_params.t -> lt.add_torrent_params.t) (d : dialog)
  : run dialog :=
  match at_int (m_params d) (selection d) with
  | None => threw d
  | Some params =>
      completed
        (with_m_params d
           (<[Z.to_nat (selection d) := f params]> (m_params d)))
  end.

(** The handler of the text event of the save path input. *)
Definition OnSavePathInput (d : dialog) : run dialog :=
  on_selected
    (fun params =>
       lt.add_torrent_params.with_save_path params (m_torrentSavePath d))
    d.

(** The handler of the sequential-download check box. *)
Definition OnSequentialDownload (d : dialog) : run dialog :=
  on_selected
    (fun params =>
       let flags := lt.add_torrent_params.flags params in
       lt.add_torrent_params.with_flags params
         (if m_sequentialDownload d
          then Z.lor flags lt.sequential_download
          else Z.land flags (lt.complement lt.sequential_download)))
    d.

(** The handler of the start-torrent check box. *)
Definition OnStartTorrent (d : dialog) : run dialog :=
  on_selected
    (fun params =>
       let flags := lt.add_torrent_params.flags params in
       lt.add_torrent_params.with_flags params
         (if m_startTorrent d
          then Z.land (Z.lor flags lt.auto_managed)
                 (lt.complement lt.paused)
          else Z.lor (Z.land flags (lt.complement lt.auto_managed))
                 lt.paused))
    d.

(** One round of the loop of [MetadataFound], for the index [i]. *)
Definition MetadataFound_at (ti : lt.torrent_info.t) (d : dialog) (i : nat)
  : dialog :=
  match m_params d !! i with
  | None => d
  | Some params =>
      if lt.info_hash_eqb (lt.add_torrent_params.info_hashes params)
           (lt.torrent_info.info_hashes ti)
      then
        let params' := lt.add_torrent_params.with_ti params (Some ti) in
        let d1 := with_m_params d (<[i := params']> (m_params d)) in
        let d2 :=
          with_m_torrents d1
            (<[i := GetTorrentDisplayName params']> (m_torrents d1)) in
        if Z.of_nat i =? selection d2 then
          match Load d2 i with
          | completed d3 => d3
          | threw d3 => d3
          end
        else d2
      else d
  end.

(** The loop of [MetadataFound] from the index [i] on, for [count] more
    rounds. *)
Fixpoint MetadataFound_from (ti : lt.torrent_info.t) (count i : nat)
  (d : dialog) : dialog :=
  match count with
  | O => d
  | S count' => MetadataFound_from ti count' (S i) (MetadataFound_at ti d i)
  end.

(** [AddTorrentDialog::MetadataFound]. *)
Definition MetadataFound (d : dialog) (ti : lt.torrent_info.t) : dialog :=
  MetadataFound_from ti (length (m_params d)) 0 d.

(** One round of the loop of [SetFilePriorities], for the file index
    [idx]. The comparison with [size()] and the call of [at] take [idx] as
    a [size_t]: with [idx = -1] the vector is resized to no elements and
    [at] throws, and a smaller [idx] asks [resize] for more than a vector
    can hold. *)
Definition SetFilePriorities_index (prio : Z) (file_priorities : list Z)
  (idx : Z) : run (list Z) :=
  if idx <? -1 then threw file_priorities
  else if idx =? -1 then threw []
  else
    let n := Z.to_nat idx in
    let resized :=
      if (length file_priorities <=? n)%nat
      then resize (S n) lt.default_priority file_priorities
      else file_priorities in
    completed (<[n := prio]> resized).

(** The loop of [SetFilePriorities] over the file indices. *)
Fixpoint SetFilePriorities_loop (prio : Z) (file_priorities : list Z)
  (fileIndices : list Z) : run (list Z) :=
  match fileIndices with
  | nil => completed file_priorities
  | idx :: rest =>
      match SetFilePriorities_index prio file_priorities idx with
      | completed file_priorities' =>
          SetFilePriorities_loop prio file_priorities' rest
      | threw file_priorities' => threw file_priorities'
      end
  end.

(** [AddTorrentDialog::SetFilePriorities]. *)
Definition SetFilePriorities (d : dialog) (items : list wxDataViewItem)
  (prio : Z) : run dialog :=
  match at_int (m_params d) (selection d) with
  | None => threw d
  | Some param =>
      let store file_priorities :=
        with_m_params d
          (<[Z.to_nat (selection d) :=
               lt.add_torrent_params.with_file_priorities param
                 file_priorities]> (m_params d)) in
      match SetFilePriorities_loop prio
              (lt.add_torrent_params.file_priorities param)
              (GetFileIndices items) with
      | completed file_priorities => completed (store file_priorities)
      | threw file_priorities => threw (store file_priorities)
      end
  end.

(** The priority a file counts with: the one the vector holds for it, or
    the default priority when the vector is too short. *)
Definition effective_priority (file_priorities : list Z) (i : nat) : Z :=
  match file_priorities !! i with
  | Some p => p
  | None => lt.default_priority
  end.

(** [firstPrio] of [ShowFileContextMenu]; [None] when
    [file_priorities[fileIndices[0]]] reads outside of a vector. *)
Definition firstPrio (file_priorities : list Z) (fileIndices : list Z)
  : option Z :=
  if (0 <? length file_priorities)%nat then
    match fileIndices with
    | nil => None
    | idx :: _ => at_int file_priorities idx
    end
  else Some lt.default_priority.

(** The priority the predicate of [std::all_of] compares for the index
    [i]: [size() >= i + 1 ? file_priorities[i] : default_priority], the
    sum taken as a [size_t]; [None] when the read is outside of the
    vector. *)
Definition compared_priority (file_priorities : list Z) (i : Z)
  : option Z :=
  if i <? -1 then Some lt.default_priority
  else if i =? -1 then None
  else Some (effective_priority file_priorities (Z.to_nat i)).

(** [std::all_of] with that predicate, which stops at the first index
    whose priority differs. *)
Fixpoint allSamePrio (first : Z) (file_priorities : list Z)
  (fileIndices : list Z) : option bool :=
  match fileIndices with
  | nil => Some true
  | i :: rest =>
      match compared_priority file_priorities i with
      | None => None
      | Some p =>
          if first =? p then allSamePrio first file_priorities rest
          else Some false
      end
  end.

(** The check marks [ShowFileContextMenu] gives the priority menu for the
    selected file indices. *)
Definition priority_menu_checks (file_priorities : list Z)
  (fileIndices : list Z) : option priority_menu :=
  match firstPrio file_priorities fileIndices with
  | None => None
  | Some first =>
      match allSamePrio first file_priorities fileIndices with
      | None => None
      | Some same =>
          Some {| maximum := same && (first =? lt.top_priority);
                  normal := same && (first =? lt.default_priority);
                  low := same && (first =? lt.low_priority);
                  do_not_download := same && (first =? lt.dont_download) |}
      end
  end.

End Dialog.

End AddTorrentDialog.

(** *** Notions used to state the properties of the dialog *)

(** A flag of the library is a single bit of the 64-bit flag type. *)
Definition single_bit (f : Z) : Prop := exists k : Z, 0 <= k < 64 /\ f = 2 ^ k.

(** The three torrent flags the dialog uses are single bits, each its
    own. *)
Definition torrent_flag_bits (L : lt.library) : Prop :=
  single_bit lt.paused
  /\ single_bit lt.auto_managed
  /\ single_bit lt.sequential_download
  /\ lt.paused <> lt.auto_managed
  /\ lt.paused <> lt.sequential_download
  /\ lt.auto_managed <> lt.sequential_download.

(** The four download priorities of the menu are different values. *)
Definition priorities_distinct (L : lt.library) : Prop :=
  NoDup [lt.top_priority; lt.default_priority; lt.low_priority;
         lt.dont_download].

(** The size a priority vector needs to hold an entry for each of the
    file indices. *)
Definition needed_size (fileIndices : list Z) : nat :=
  foldr (fun idx n => Nat.max (S (Z.to_nat idx)) n) O fileIndices.

(** What the labels, the inputs and the file model of the dialog hold. *)
Definition widgets (d : AddTorrentDialog.dialog)
  : string * string * string * string * string * bool * bool
    * list AddTorrentDialog.files_call :=
  (AddTorrentDialog.m_torrentName d, AddTorrentDialog.m_torrentSize d,
   AddTorrentDialog.m_torrentInfoHash d, AddTorrentDialog.m_torrentComment d,
   AddTorrentDialog.m_torrentSavePath d,
   AddTorrentDialog.m_sequentialDownload d,
   AddTorrentDialog.m_startTorrent d, AddTorrentDialog.m_filesModel d).

(** What [Load] makes them hold for the parameters [params], the file
    model having received the calls [calls] before. *)
Definition widgets_for {L : lt.library} (toHumanFileSize : Z -> string)
  (params : lt.add_torrent_params.t)
  (calls : list AddTorrentDialog.files_call)
  : string * string * string * string * string * bool * bool
    * list AddTorrentDialog.files_call :=
  (AddTorrentDialog.GetTorrentDisplayName params,
   AddTorrentDialog.GetTorrentDisplaySize toHumanFileSize params,
   AddTorrentDialog.GetTorrentDisplayInfoHash params,
   AddTorrentDialog.GetTorrentDisplayComment params,
   lt.add_torrent_params.save_path params,
   lt.has_flag (lt.add_torrent_params.flags params) lt.sequential_download,
   AddTorrentDialog.start_shown (lt.add_torrent_params.flags params),
   (calls
    ++ match lt.add_torrent_params.ti params with
       | Some ti =>
           [AddTorrentDialog.RebuildTree ti;
            AddTorrentDialog.UpdatePriorities
              (lt.add_torrent_params.file_priorities params);
            AddTorrentDialog.Expand_root]
       | None => [AddTorrentDialog.Cleared]
       end)%list).

(** The metadata [ti] belongs to the parameters [params]. *)
Definition metadata_of (ti : lt.torrent_info.t)
  (params : lt.add_torrent_params.t) : bool :=
  lt.info_hash_eqb (lt.add_torrent_params.info_hashes params)
    (lt.torrent_info.info_hashes ti).

(** The parameters with the metadata [ti], when it belongs to them. *)
Definition with_metadata (ti : lt.torrent_info.t)
  (params : lt.add_torrent_params.t) : lt.add_torrent_params.t :=
  if metadata_of ti params
  then lt.add_torrent_params.with_ti params (Some ti)
  else params.

(** ** Reference instances of the collaborators

    Concrete stand-ins for the parts that are parameters of the server
    below, and a few worlds, used to run the model. *)

Module sample.

(** [n] lower-case letters, starting from the letter chosen by [seed]. *)
Fixpoint letters (seed : N) (n : nat) : string :=
  match n with
  | O => EmptyString
  | S n' => String (ascii_of_N (97 + seed mod 26)) (letters (seed + 1) n')
  end.

Definition rsg_generate (e : N) (n : nat) : string * N :=
  (letters e n, (e + N.of_nat n)%N).

Definition pem_header : string := "-----BEGIN ".

Definition certificate_manager_generate (e : N) : string * N :=
  (pem_header ++ letters e 16, (e + 16)%N).

Definition pem_certificate_chain (pem : string) : bool :=
  String.prefix pem_header pem.

Definition pem_private_key (pem password : string) : bool :=
  String.prefix pem_header pem.

(** The option bits as OpenSSL 1.0 defines them. *)
Definition SSL_OP_ALL : Z := 0x80000BFF.
Definition SSL_OP_NO_SSLv2 : Z := 0x01000000.
Definition SSL_OP_NO_SSLv3 : Z := 0x02000000.
Definition SSL_OP_NO_TLSv1 : Z := 0x04000000.
Definition SSL_OP_SINGLE_DH_USE : Z := 0x00100000.

Definition settings (token : string) : configuration :=
  {| websocket_access_token := token;
     websocket_certificate_file := "PicoTorrent.pem";
     websocket_certificate_password := "";
     websocket_cipher_list := "ECDHE-RSA-AES256-GCM-SHA384:!aNULL";
     websocket_listen_port := 7676 |}.

(** A fresh installation: no token configured, no certificate on disk. *)
Definition fresh_install : world :=
  {| config := settings ""; files := ∅; entropy := 7; journal := [] |}.

(** An installation with a token and a certificate in place. *)
Definition provisioned : world :=
  {| config := settings "hunter2";
     files := {[ "PicoTorrent.pem" := pem_header ++ "CERTIFICATE-----" ]};
     entropy := 7; journal := [] |}.

(** An installation whose certificate file does not hold PEM data. *)
Definition corrupt_certificate : world :=
  {| config := settings "hunter2";
     files := {[ "PicoTorrent.pem" := "not a certificate" ]};
     entropy := 7; journal := [] |}.

(** A file system on which every path can be opened for writing except
    those on the drive [Z:], which does not exist. *)
Definition ofstream_opens (path : string) : bool :=
  negb (String.prefix "Z:" path).

(** A fresh installation whose certificate path is on that drive. *)
Definition missing_drive : world :=
  {| config :=
       {| websocket_access_token := "";
          websocket_certificate_file := "Z:\PicoTorrent.pem";
          websocket_certificate_password := "";
          websocket_cipher_list := "ECDHE-RSA-AES256-GCM-SHA384:!aNULL";
          websocket_listen_port := 7676 |};
     files := ∅; entropy := 7; journal := [] |}.

(** A client that presents the token ["hunter2"]. *)
Definition client : connection :=
  {| request_headers :=
       [("Host", "localhost:7676");
        ("Upgrade", "websocket");
        ("X-PicoTorrent-Token", "hunter2")] |}.

(** A server holding the token ["hunter2"] whose endpoint manages the
    connection of [client] under handle 1. *)
Definition server : websocket_server :=
  {| srv_ := {| endpoint_connections := {[ 1%positive := client ]} |};
     bg_ := not_a_thread;
     configured_token_ := "hunter2";
     connections_ := ∅ |}.

End sample.

(** ** Reference instances for the dialog *)

Module sample_torrents.

Definition hex_digit (n : N) : ascii :=
  if (n <? 10)%N then ascii_of_N (48 + n) else ascii_of_N (87 + n).

(** The hexadecimal text of a digest. *)
Fixpoint to_hex (digest : string) : string :=
  match digest with
  | EmptyString => EmptyString
  | String c rest =>
      String (hex_digit (N_of_ascii c / 16))
        (String (hex_digit (N_of_ascii c mod 16)) (to_hex rest))
  end.

(** The flags and priorities as libtorrent 2.0 defines them. *)
Definition libtorrent : lt.library :=
  {| lt.sequential_download := 2 ^ 9;
     lt.auto_managed := 2 ^ 5;
     lt.paused := 2 ^ 4;
     lt.dont_download := 0;
     lt.low_priority := 1;
     lt.default_priority := 4;
     lt.top_priority := 7;
     lt.digest_text := to_hex |}.

Definition toHumanFileSize (size : Z) : string :=
  if size <? 1024 then "under 1 KiB" else "1 KiB or more".

Definition no_hash : string := String "000"%char (String "000"%char "").

Definition some_hash : string := String "018"%char (String "171"%char "").

Definition debian : lt.torrent_info.t :=
  {| lt.torrent_info.name := "debian.iso";
     lt.torrent_info.total_size := 4096;
     lt.torrent_info.comment := "netinst";
     lt.torrent_info.info_hashes :=
       {| lt.v1 := some_hash; lt.v2 := no_hash |} |}.

(** A magnet link whose metadata has not arrived: paused, not
    auto-managed. *)
Definition magnet : lt.add_torrent_params.t :=
  {| lt.add_torrent_params.ti := None;
     lt.add_torrent_params.name := "";
     lt.add_torrent_params.info_hashes :=
       {| lt.v1 := some_hash; lt.v2 := no_hash |};
     lt.add_torrent_params.save_path := "C:\Downloads";
     lt.add_torrent_params.flags := 2 ^ 4;
     lt.add_torrent_params.file_priorities := [] |}.

(** A dialog for that magnet link, selected and loaded. *)
Definition dialog : AddTorrentDialog.dialog :=
  {| AddTorrentDialog.m_params := [magnet];
     AddTorrentDialog.m_torrents := ["12ab"];
     AddTorrentDialog.selection := 0;
     AddTorrentDialog.m_torrentName := "12ab";
     AddTorrentDialog.m_torrentSize := "-";
     AddTorrentDialog.m_torrentInfoHash := "12ab";
     AddTorrentDialog.m_torrentComment := "-";
     AddTorrentDialog.m_torrentSavePath := "C:\Downloads";
     AddTorrentDialog.m_sequentialDownload := true;
     AddTorrentDialog.m_startTorrent := true;
     AddTorrentDialog.m_filesModel := [AddTorrentDialog.Cleared] |}.

(** Absolute paths below the directory the application was started in;
    the empty path has none. *)
Definition absolute (arg : string) : option string :=
  if std_string.empty arg then None else Some ("C:\PicoTorrent\" ++ arg).

(** The items of the file view, named by their file index. *)
Definition GetFileIndices (items : list nat) : list Z := map Z.of_nat items.

End sample_torrents.

Section Server.

(** The parts of the program and of its libraries that the server calls
    and that are not among the sources. *)

(** [random_string_generator::generate(n)]: from the state of the random
    source, a string and the next state. *)
Variable rsg_generate : N -> nat -> string * N.

(** The file system's answer to opening a path for writing: whether a
    [std::ofstream] on that path opens. *)
Variable ofstream_opens : string -> bool.

(** [certificate_manager::generate()]: the bytes of a freshly generated
    certificate and key. *)
Variable certificate_manager_generate : N -> string * N.

(** [dh_params::get()]: the process-wide Diffie-Hellman parameters. *)
Variable DH : Type.
Variable dh_params_get : DH.

(** OpenSSL's PEM readers: whether the bytes hold a certificate chain, and
    whether they hold a private key that the password opens. *)
Variable pem_certificate_chain : string -> bool.
Variable pem_private_key : string -> string -> bool.

(** The option bits of [boost::asio::ssl::context]. *)
Variables default_workarounds no_sslv2 no_sslv3 no_tlsv1 single_dh_use : Z.

(** [websocket_server::websocket_server]. The handler registrations bind
    the callbacks below to the endpoint and leave no other state. *)
Definition websocket_server_new : IO websocket_server :=
  (let srv := {| endpoint_connections := ∅ |} in
   token <- cfg_get websocket_access_token ;;
   if std_string.empty token then
     generated <- draw (fun e => rsg_generate e DEFAULT_TOKEN_SIZE) ;;
     cfg_set_websocket_access_token generated ;;;
     ret {| srv_ := srv; bg_ := not_a_thread;
            configured_token_ := generated; connections_ := ∅ |}
   else
     ret {| srv_ := srv; bg_ := not_a_thread;
            configured_token_ := token; connections_ := ∅ |})%io.

(** [ssl::context::use_certificate_chain_file]: throws unless the file can
    be read as a certificate chain. *)
Definition use_certificate_chain_file (ctx : ssl_context DH)
  (filename : string) : IO (ssl_context DH) :=
  (content <- read_file filename ;;
   match content with
   | Some pem =>
       if pem_certificate_chain pem then ret (with_certificate_chain ctx pem)
       else throw (system_error "use_certificate_chain_file")
   | None => throw (system_error "use_certificate_chain_file")
   end)%io.

(** [ssl::context::use_private_key_file]: the password callback, when one
    is installed, is asked for the password at this moment; throws unless
    the file can be read as a private key. *)
Definition use_private_key_file (ctx : ssl_context DH)
  (filename : string) : IO (ssl_context DH) :=
  (content <- read_file filename ;;
   match content with
   | Some pem =>
       password <- match password_cb ctx with
                   | Some get_certificate_password_of_this =>
                       get_certificate_password
                   | None => ret ""
                   end ;;
       if pem_private_key pem password then ret (with_private_key ctx pem)
       else throw (system_error "use_private_key_file")
   | None => throw (system_error "use_private_key_file")
   end)%io.

(** [websocket_server::on_tls_init]. *)
Definition on_tls_init (this : websocket_server) (hdl : connection_hdl)
  : IO (ssl_context DH) :=
  (let ctx := make_context sslv23 in
   let ctx :=
     set_options ctx
       (Z.lor (Z.lor (Z.lor (Z.lor default_workarounds no_sslv2) no_sslv3)
                 no_tlsv1) single_dh_use) in
   certificate_file <- cfg_get websocket_certificate_file ;;
   present <- pal_file_exists certificate_file ;;
   (if negb present then
      v <- draw certificate_manager_generate ;;
      ofstream_write ofstream_opens certificate_file v
    else ret tt) ;;;
   let ctx := set_password_callback ctx get_certificate_password_of_this in
   ctx <- use_certificate_chain_file ctx certificate_file ;;
   ctx <- use_private_key_file ctx certificate_file ;;
   let dh := dh_params_get in
   let ctx := SSL_CTX_set_tmp_dh ctx dh in
   cipher <- cfg_get websocket_cipher_list ;;
   ret (SSL_CTX_set_cipher_list ctx cipher))%io.

(** *** Notions used to state the properties *)

(** Modelled from the spec: the contract of
    [random_string_generator::generate], which is not among the sources:
    it "generates a token of a fixed length", the length it is asked
    for. *)
Definition generates_requested_length (gen : N -> nat -> string * N) : Prop :=
  forall (e : N) (n : nat), String.length (fst (gen e n)) = n.

(** The writes a call performed: what it appended to the journal. *)
Definition writes_of (before after : world) : list io_event :=
  drop (length (journal before)) (journal after).

(** Token provisioning performed twice in a row on the same configuration
    store, as the idempotence property words it: both runs yield the same
    token, exactly one persistence write happens over the two runs, and the
    second run writes nothing. *)
Definition provisions_same_token_with_one_write (w : world) : Prop :=
  match websocket_server_new w with
  | (Returns first, w1) =>
      match websocket_server_new w1 with
      | (Returns second, w2) =>
          configured_token_ first = configured_token_ second
          /\ length (writes_of w w2) = 1%nat
          /\ writes_of w1 w2 = []
      | (Throws _, _) => False
      end
  | (Throws _, _) => False
  end.

(** The context [on_tls_init] returns once the certificate file [pem] has
    been loaded, for the cipher list [cipher]. *)
Definition built_context (pem cipher : string) : ssl_context DH :=
  SSL_CTX_set_cipher_list
    (SSL_CTX_set_tmp_dh
       (with_private_key
          (with_certificate_chain
             (set_password_callback
                (set_options (make_context sslv23)
                   (Z.lor
                      (Z.lor
                         (Z.lor (Z.lor default_workarounds no_sslv2) no_sslv3)
                         no_tlsv1) single_dh_use))
                get_certificate_password_of_this) pem) pem)
       dh_params_get) cipher.

(** Loading the certificate, the part of [on_tls_init] after the file has
    been provided: what it answers in a world whose certificate file holds
    [pem]. *)
Definition load_outcome (w : world) (pem : string)
  : outcome (ssl_context DH) :=
  if pem_certificate_chain pem then
    if pem_private_key pem (websocket_certificate_password (config w)) then
      Returns (built_context pem (websocket_cipher_list (config w)))
    else Throws (system_error "use_private_key_file")
  else Throws (system_error "use_certificate_chain_file").

(** The world after [on_tls_init] found no certificate file and the
    stream on its path opened. *)
Definition world_with_new_certificate (w : world) : world :=
  let path := websocket_certificate_file (config w) in
  let generated := certificate_manager_generate (entropy w) in
  {| config := config w;
     files := <[path := fst generated]> (files w);
     entropy := snd generated;
     journal := journal w ++ [file_write path (fst generated)] |}.

(** The world after [on_tls_init] found no certificate file and the
    stream on its path did not open: certificate material was generated,
    and nothing was written. *)
Definition world_without_certificate (w : world) : world :=
  {| config := config w;
     files := files w;
     entropy := snd (certificate_manager_generate (entropy w));
     journal := journal w |}.

(** Lazy certificate generation, as the scenario words it for every
    state: when no certificate file exists at the configured path, after
    [on_tls_init] the file exists with contents that are not empty. *)
Definition absent_certificate_is_generated (this : websocket_server)
  (hdl : connection_hdl) (w : world) : Prop :=
  files w !! websocket_certificate_file (config w) = None ->
  exists data : string,
    files (snd (on_tls_init this hdl w))
      !! websocket_certificate_file (config w) = Some data
    /\ data <> "".

(** Modelled from the spec: the contract of
    [certificate_manager::generate], which is not among the sources: it
    "synthesizes a new self-signed certificate and key pair", so the bytes
    it returns are never empty. *)
Definition generates_certificate_bytes (gen : N -> string * N) : Prop :=
  forall e : N, fst (gen e) <> "".

(** The configured certificate file exists but cannot be loaded: its bytes
    are not a certificate chain, or not a private key that the configured
    password opens. *)
Definition certificate_unusable (w : world) : Prop :=
  exists pem : string,
    files w !! websocket_certificate_file (config w) = Some pem
    /\ (pem_certificate_chain pem = false
        \/ pem_private_key pem (websocket_certificate_password (config w))
           = false).

(** The outcome of [start] is a server whose network thread runs. *)
Definition running (o : option websocket_server) : Prop :=
  exists this : websocket_server, o = Some this /\ bg_ this = joinable_run.

(** An unusable certificate file as a fatal startup error, as the error
    taxonomy words it: with such a file in place the control server does
    not start, that is, constructing the server fails or [start] does not
    leave it running. *)
Definition unusable_certificate_prevents_start (w : world) : Prop :=
  certificate_unusable w ->
  match websocket_server_new w with
  | (Returns this, _) => ~ running (start this)
  | (Throws _, _) => True
  end.

(** ** Properties *)

(** *** Strings *)

Lemma std_string_empty_true (s : string) : std_string.empty s = true <-> s = "".
Proof. destruct s; simpl; split; congruence. Qed.

Lemma std_string_empty_false (s : string) :
  std_string.empty s = false <-> s <> "".
Proof. destruct s; simpl; split; congruence. Qed.

Lemma std_string_compare_refl (a : string) : std_string.compare a a = 0.
Proof.
  induction a as [|x a IH]; simpl; [reflexivity|].
  rewrite N.ltb_irrefl. exact IH.
Qed.

Lemma std_string_compare_zero_eq (a : string) :
  forall b, std_string.compare a b = 0 -> a = b.
Proof.
  induction a as [|x a IH]; intros [|y b]; simpl; try discriminate;
    [reflexivity|].
  destruct (N.ltb_spec (N_of_ascii x) (N_of_ascii y)); [discriminate|].
  destruct (N.ltb_spec (N_of_ascii y) (N_of_ascii x)); [discriminate|].
  intros Hc. f_equal; [|apply IH, Hc].
  rewrite <- (ascii_N_embedding x), <- (ascii_N_embedding y).
  f_equal. lia.
Qed.

Lemma std_string_compare_zero_iff (a b : string) :
  std_string.compare a b = 0 <-> a = b.
Proof.
  split; [apply std_string_compare_zero_eq|].
  intros ->; apply std_string_compare_refl.
Qed.

Lemma std_string_compare_eqb (a b : string) :
  (std_string.compare a b =? 0) = true <-> a = b.
Proof. rewrite Z.eqb_eq. apply std_string_compare_zero_iff. Qed.

(** *** Connection admission *)

(** What [on_validate] answers, in terms of the header it looks up. *)
Lemma on_validate_header (this : websocket_server) (hdl : connection_hdl)
  (con : connection) :
  get_con_from_hdl (srv_ this) hdl = Returns con ->
  on_validate this hdl =
    Returns
      match find_header (request_headers con) token_header with
      | Some value =>
          negb (std_string.empty value)
          && (std_string.compare (configured_token_ this) value =? 0)
      | None => false
      end.
Proof.
  intros Hcon. unfold on_validate, get_request_header. rewrite Hcon.
  destruct (find_header (request_headers con) token_header) as [value|];
    [|reflexivity].
  destruct (std_string.empty value); reflexivity.
Qed.

(** C1. With [hdl] referring to the connection [con], [on_validate]
    accepts exactly when the request of [con] carries an
    X-PicoTorrent-Token header whose value is non-empty and equal to the
    server's token: it rejects when the header is absent or empty, it
    rejects when the value differs from the token, and it accepts when the
    (non-empty) value equals the token. *)
Theorem on_validate_accepts_iff_token (this : websocket_server)
  (hdl : connection_hdl) (con : connection) :
  get_con_from_hdl (srv_ this) hdl = Returns con ->
  let header := find_header (request_headers con) token_header in
  (on_validate this hdl = Returns true <->
     exists value,
       header = Some value /\ value <> "" /\ value = configured_token_ this)
  /\ (header = None \/ header = Some "" ->
      on_validate this hdl = Returns false)
  /\ (forall value, header = Some value ->
        value <> configured_token_ this ->
        on_validate this hdl = Returns false)
  /\ (forall value, header = Some value ->
        value <> "" -> value = configured_token_ this ->
        on_validate this hdl = Returns true).
Proof.
  intros Hcon header. rewrite (on_validate_header this hdl con Hcon).
  fold header. repeat split.
  - destruct header as [value|]; [|discriminate].
    intros [= Hacc]. apply andb_prop in Hacc as [Hne Heq].
    exists value. split; [reflexivity|]. split.
    + apply std_string_empty_false. now destruct (std_string.empty value).
    + symmetry. now apply std_string_compare_eqb.
  - intros (value & -> & Hne & Heq). f_equal. apply andb_true_intro. split.
    + apply std_string_empty_false in Hne. now rewrite Hne.
    + apply std_string_compare_eqb. now symmetry.
  - intros [-> | ->]; reflexivity.
  - intros value -> Hdiff. f_equal. apply andb_false_intro2.
    destruct (std_string.compare (configured_token_ this) value =? 0) eqn:E;
      [|reflexivity].
    apply std_string_compare_eqb in E. congruence.
  - intros value -> Hne Heq. f_equal. apply andb_true_intro. split.
    + apply std_string_empty_false in Hne. now rewrite Hne.
    + apply std_string_compare_eqb. now symmetry.
Qed.

(** *** Token provisioning *)

Lemma websocket_server_new_configured (w : world) :
  websocket_access_token (config w) <> "" ->
  websocket_server_new w =
    (Returns {| srv_ := {| endpoint_connections := ∅ |};
                bg_ := not_a_thread;
                configured_token_ := websocket_access_token (config w);
                connections_ := ∅ |}, w).
Proof.
  intros Hne. apply std_string_empty_false in Hne.
  unfold websocket_server_new, bind, cfg_get, ret. now rewrite Hne.
Qed.

Lemma websocket_server_new_unconfigured (w : world) :
  websocket_access_token (config w) = "" ->
  let generated := fst (rsg_generate (entropy w) DEFAULT_TOKEN_SIZE) in
  websocket_server_new w =
    (Returns {| srv_ := {| endpoint_connections := ∅ |};
                bg_ := not_a_thread;
                configured_token_ := generated;
                connections_ := ∅ |},
     {| config := set_websocket_access_token (config w) generated;
        files := files w;
        entropy := snd (rsg_generate (entropy w) DEFAULT_TOKEN_SIZE);
        journal :=
          journal w ++ [config_write "websocket_access_token" generated] |}).
Proof.
  intros Hempty generated. subst generated.
  unfold websocket_server_new, bind, cfg_get, draw,
    cfg_set_websocket_access_token, ret.
  rewrite Hempty. simpl.
  destruct (rsg_generate (entropy w) DEFAULT_TOKEN_SIZE) as [tok e'].
  reflexivity.
Qed.

Lemma requested_length_nonempty (e : N) :
  generates_requested_length rsg_generate ->
  fst (rsg_generate e DEFAULT_TOKEN_SIZE) <> "".
Proof.
  intros Hlen Heq. specialize (Hlen e DEFAULT_TOKEN_SIZE).
  rewrite Heq in Hlen. discriminate Hlen.
Qed.

(** The token of a constructed server is never empty. *)
Lemma websocket_server_new_token_nonempty (w w' : world)
  (this : websocket_server) :
  generates_requested_length rsg_generate ->
  websocket_server_new w = (Returns this, w') ->
  configured_token_ this <> "".
Proof.
  intros Hlen Hnew.
  destruct (string_dec (websocket_access_token (config w)) "") as [He|Hne].
  - rewrite (websocket_server_new_unconfigured w He) in Hnew.
    injection Hnew as <- _. simpl. now apply requested_length_nonempty.
  - rewrite (websocket_server_new_configured w Hne) in Hnew.
    injection Hnew as <- _. exact Hne.
Qed.

(** C2. Constructing the server always succeeds. When the configuration
    holds a non-empty access token the server takes that token and the
    world is left exactly as it was (nothing is written); otherwise the
    server takes the string the random generator returns for length 20,
    which has exactly 20 characters, and stores it in the configuration by
    one persistence write. *)
Theorem constructor_provisions_token (w : world) :
  generates_requested_length rsg_generate ->
  exists (this : websocket_server) (w' : world),
    websocket_server_new w = (Returns this, w')
    /\ (websocket_access_token (config w) <> "" ->
        configured_token_ this = websocket_access_token (config w)
        /\ w' = w
        /\ writes_of w w' = [])
    /\ (websocket_access_token (config w) = "" ->
        configured_token_ this = fst (rsg_generate (entropy w) 20)
        /\ String.length (configured_token_ this) = 20%nat
        /\ websocket_access_token (config w') = configured_token_ this
        /\ writes_of w w' =
             [config_write "websocket_access_token" (configured_token_ this)]).
Proof.
  intros Hlen.
  destruct (string_dec (websocket_access_token (config w)) "") as [He|Hne].
  - pose proof (websocket_server_new_unconfigured w He) as Hnew.
    simpl in Hnew. eexists _, _. split; [exact Hnew|]. split; [tauto|].
    intros _. simpl. repeat split.
    + apply Hlen.
    + unfold writes_of. simpl. now rewrite drop_app_length.
  - eexists _, _. split; [apply (websocket_server_new_configured w Hne)|].
    split; [|tauto]. intros _. repeat split.
    unfold writes_of. apply drop_all.
Qed.

(** C8, amended. Provisioning the token twice in a row on the same
    configuration store succeeds both times with the same token, and the
    second run leaves the world exactly as the first one left it. Over the
    two runs there is one persistence write when the configuration held no
    token at the start, and none when it already held one. *)
Theorem token_provisioning_idempotent (w : world) :
  generates_requested_length rsg_generate ->
  exists (first second : websocket_server) (w1 w2 : world),
    websocket_server_new w = (Returns first, w1)
    /\ websocket_server_new w1 = (Returns second, w2)
    /\ configured_token_ first = configured_token_ second
    /\ w2 = w1
    /\ writes_of w1 w2 = []
    /\ writes_of w w2 =
         if std_string.empty (websocket_access_token (config w))
         then [config_write "websocket_access_token" (configured_token_ first)]
         else [].
Proof.
  intros Hlen.
  destruct (string_dec (websocket_access_token (config w)) "") as [He|Hne].
  - pose proof (websocket_server_new_unconfigured w He) as Hnew1.
    simpl in Hnew1.
    set (generated := fst (rsg_generate (entropy w) DEFAULT_TOKEN_SIZE)) in *.
    assert (Hgen : generated <> "") by now apply requested_length_nonempty.
    eexists _, _, _, _. split; [exact Hnew1|].
    split; [apply websocket_server_new_configured; exact Hgen|].
    rewrite He. simpl. repeat split.
    + unfold writes_of. apply drop_all.
    + unfold writes_of. simpl. now rewrite drop_app_length.
  - pose proof (websocket_server_new_configured w Hne) as Hnew.
    eexists _, _, w, w. split; [exact Hnew|]. split; [exact Hnew|].
    apply std_string_empty_false in Hne as ->.
    repeat split; unfold writes_of; apply drop_all.
Qed.

(** *** The TLS context builder *)

Ltac run_io :=
  unfold on_tls_init, use_certificate_chain_file, use_private_key_file,
    get_certificate_password, read_file, pal_file_exists, ofstream_write,
    draw, cfg_get, bind, ret, throw; simpl.

Lemma option_set_lor_r (a flag : Z) : option_set (Z.lor a flag) flag.
Proof.
  unfold option_set. apply Z.bits_inj'. intros n _.
  rewrite Z.land_spec, Z.lor_spec.
  destruct (Z.testbit a n), (Z.testbit flag n); reflexivity.
Qed.

Lemma option_set_lor_l (a b flag : Z) :
  option_set a flag -> option_set (Z.lor a b) flag.
Proof.
  unfold option_set. intros Hset. apply Z.bits_inj'. intros n _.
  rewrite Z.land_spec, Z.lor_spec, <- Hset, Z.land_spec.
  destruct (Z.testbit a n), (Z.testbit b n), (Z.testbit flag n); reflexivity.
Qed.

(** With the certificate file in place [on_tls_init] only reads. *)
Lemma on_tls_init_present (this : websocket_server) (hdl : connection_hdl)
  (w : world) (pem : string) :
  files w !! websocket_certificate_file (config w) = Some pem ->
  on_tls_init this hdl w = (load_outcome w pem, w).
Proof.
  intros Hpem. unfold load_outcome, built_context. run_io.
  rewrite Hpem. simpl. rewrite Hpem.
  destruct (pem_certificate_chain pem); [|reflexivity].
  simpl. rewrite Hpem.
  destruct (pem_private_key pem _); reflexivity.
Qed.

(** Without a certificate file, and with a path that can be opened,
    [on_tls_init] first writes a generated one, then loads it. *)
Lemma on_tls_init_absent (this : websocket_server) (hdl : connection_hdl)
  (w : world) :
  files w !! websocket_certificate_file (config w) = None ->
  ofstream_opens (websocket_certificate_file (config w)) = true ->
  on_tls_init this hdl w =
    (load_outcome w (fst (certificate_manager_generate (entropy w))),
     world_with_new_certificate w).
Proof.
  intros Hnone Hopens.
  unfold load_outcome, built_context, world_with_new_certificate.
  run_io. rewrite Hnone. simpl.
  destruct (certificate_manager_generate (entropy w)) as [v e'] eqn:Hgen.
  simpl. rewrite Hopens. simpl. rewrite lookup_insert_eq.
  destruct (pem_certificate_chain v); [|reflexivity].
  simpl. rewrite lookup_insert_eq.
  destruct (pem_private_key v _); reflexivity.
Qed.

(** Without a certificate file, and with a path that cannot be opened,
    [on_tls_init] generates certificate material, writes nothing and
    throws when it comes to load the file, which is still not there. *)
Lemma on_tls_init_unopenable (this : websocket_server)
  (hdl : connection_hdl) (w : world) :
  files w !! websocket_certificate_file (config w) = None ->
  ofstream_opens (websocket_certificate_file (config w)) = false ->
  on_tls_init this hdl w =
    (Throws (system_error "use_certificate_chain_file"),
     world_without_certificate w).
Proof.
  intros Hnone Hopens. unfold world_without_certificate.
  run_io. rewrite Hnone. simpl.
  destruct (certificate_manager_generate (entropy w)) as [v e'] eqn:Hgen.
  simpl. rewrite Hopens. simpl. now rewrite Hnone.
Qed.

(** C3. When a file exists at the configured certificate path,
    [on_tls_init] leaves the world exactly as it found it, whether it
    returns a context or throws: no file is written, the files hold the
    same bytes as before, and in particular the certificate file does. *)
Theorem on_tls_init_keeps_existing_certificate (this : websocket_server)
  (hdl : connection_hdl) (w : world) :
  is_Some (files w !! websocket_certificate_file (config w)) ->
  let w' := snd (on_tls_init this hdl w) in
  writes_of w w' = []
  /\ files w' = files w
  /\ files w' !! websocket_certificate_file (config w)
     = files w !! websocket_certificate_file (config w)
  /\ w' = w.
Proof.
  intros [pem Hpem] w'. subst w'.
  rewrite (on_tls_init_present this hdl w pem Hpem). simpl.
  repeat split. unfold writes_of. apply drop_all.
Qed.

(** C4, amended. When no file exists at the configured certificate path
    and that path can be opened for writing, [on_tls_init] writes the
    generated certificate material to that path (the only write it
    performs), so that afterwards the file exists and holds these bytes,
    which are not empty; this is so whether the call then returns a
    context or throws. *)
Theorem on_tls_init_generates_missing_certificate (this : websocket_server)
  (hdl : connection_hdl) (w : world) :
  generates_certificate_bytes certificate_manager_generate ->
  files w !! websocket_certificate_file (config w) = None ->
  ofstream_opens (websocket_certificate_file (config w)) = true ->
  let path := websocket_certificate_file (config w) in
  let material := fst (certificate_manager_generate (entropy w)) in
  let w' := snd (on_tls_init this hdl w) in
  writes_of w w' = [file_write path material]
  /\ files w' !! websocket_certificate_file (config w') = Some material
  /\ material <> "".
Proof.
  intros Hgen Hnone Hopens path material w'. subst w'.
  rewrite (on_tls_init_absent this hdl w Hnone Hopens). simpl.
  repeat split.
  - unfold writes_of. simpl. now rewrite drop_app_length.
  - apply lookup_insert_eq.
  - apply Hgen.
Qed.

(** C5. Every context that [on_tls_init] returns has the no-SSLv2,
    no-SSLv3, no-TLSv1 and single-DH-use options set, and carries as its
    cipher list the configured cipher list of the world the call ran in;
    the call does not change the configuration, and what it does is the
    same for every server object and handle, so that nothing kept from an
    earlier call enters into it. *)
Theorem on_tls_init_context_hardened (this : websocket_server)
  (hdl : connection_hdl) (w w' : world) (ctx : ssl_context DH) :
  on_tls_init this hdl w = (Returns ctx, w') ->
  option_set (options ctx) no_sslv2
  /\ option_set (options ctx) no_sslv3
  /\ option_set (options ctx) no_tlsv1
  /\ option_set (options ctx) single_dh_use
  /\ cipher_list ctx = Some (websocket_cipher_list (config w))
  /\ config w' = config w
  /\ (forall (other : websocket_server) (hdl' : connection_hdl),
        on_tls_init other hdl' w = on_tls_init this hdl w).
Proof.
  intros Hinit.
  assert (exists pem,
             ctx = built_context pem (websocket_cipher_list (config w))
             /\ config w' = config w) as (pem & -> & Hcfg).
  { destruct (files w !! websocket_certificate_file (config w)) as [pem|]
      eqn:Hfile.
    - rewrite (on_tls_init_present this hdl w pem Hfile) in Hinit.
      unfold load_outcome in Hinit. exists pem.
      destruct (pem_certificate_chain pem); [|discriminate].
      destruct (pem_private_key pem _); [|discriminate].
      injection Hinit as <- <-. split; reflexivity.
    - destruct (ofstream_opens (websocket_certificate_file (config w)))
        eqn:Hopens.
      + rewrite (on_tls_init_absent this hdl w Hfile Hopens) in Hinit.
        unfold load_outcome in Hinit.
        exists (fst (certificate_manager_generate (entropy w))).
        destruct (pem_certificate_chain _); [|discriminate].
        destruct (pem_private_key _ _); [|discriminate].
        injection Hinit as <- <-. split; reflexivity.
      + rewrite (on_tls_init_unopenable this hdl w Hfile Hopens) in Hinit.
        discriminate Hinit. }
  simpl. rewrite Z.lor_0_l. repeat split; [ | | | | exact Hcfg].
  - do 3 apply option_set_lor_l. apply option_set_lor_r.
  - do 2 apply option_set_lor_l. apply option_set_lor_r.
  - apply option_set_lor_l. apply option_set_lor_r.
  - apply option_set_lor_r.
Qed.

(** *** Unusable certificate files *)

(** The constructor touches neither the files nor the certificate
    settings. *)
Lemma websocket_server_new_keeps_certificate (w : world) :
  exists (this : websocket_server) (w' : world),
    websocket_server_new w = (Returns this, w')
    /\ bg_ this = not_a_thread
    /\ files w' = files w
    /\ websocket_certificate_file (config w')
       = websocket_certificate_file (config w)
    /\ websocket_certificate_password (config w')
       = websocket_certificate_password (config w).
Proof.
  destruct (string_dec (websocket_access_token (config w)) "") as [He|Hne].
  - eexists _, _. split; [apply (websocket_server_new_unconfigured w He)|].
    repeat split.
  - eexists _, _. split; [apply (websocket_server_new_configured w Hne)|].
    repeat split.
Qed.

Lemma on_tls_init_unusable (this : websocket_server) (hdl : connection_hdl)
  (w : world) :
  certificate_unusable w ->
  exists e : exception, on_tls_init this hdl w = (Throws e, w).
Proof.
  intros (pem & Hpem & Hbad).
  rewrite (on_tls_init_present this hdl w pem Hpem). unfold load_outcome.
  destruct (pem_certificate_chain pem) eqn:Hchain.
  - destruct Hbad as [Hbad | ->]; [discriminate|]. eexists. reflexivity.
  - eexists. reflexivity.
Qed.

(** C7, amended. A certificate file that exists but cannot be loaded is
    never regenerated: [on_tls_init] throws and leaves the world, and so
    the file, exactly as it was. Neither the constructor nor [start] looks
    at the certificate: with such a file in place the server is constructed
    and [start] leaves it running, and it is [on_tls_init], called on the
    running server, that throws, every time it is called. *)
Theorem unusable_certificate_fails_in_tls_init (this : websocket_server)
  (hdl : connection_hdl) (w : world) :
  certificate_unusable w ->
  (exists e : exception, on_tls_init this hdl w = (Throws e, w))
  /\ exists (built started : websocket_server) (w1 : world),
       websocket_server_new w = (Returns built, w1)
       /\ start built = Some started
       /\ running (start built)
       /\ files w1 = files w
       /\ exists e : exception, on_tls_init started hdl w1 = (Throws e, w1).
Proof.
  intros Hbad. split; [now apply on_tls_init_unusable|].
  destruct (websocket_server_new_keeps_certificate w)
    as (built & w1 & Hnew & Hbg & Hfiles & Hpath & Hpw).
  assert (Hstart : start built =
            Some {| srv_ := srv_ built; bg_ := joinable_run;
                    configured_token_ := configured_token_ built;
                    connections_ := connections_ built |}).
  { unfold start. now rewrite Hbg. }
  eexists built, _, w1. split; [exact Hnew|]. split; [exact Hstart|].
  split; [eexists; split; [exact Hstart|reflexivity]|].
  split; [exact Hfiles|].
  apply on_tls_init_unusable.
  destruct Hbad as (pem & Hpem & Hcase). exists pem.
  rewrite Hfiles, Hpath, Hpw. split; assumption.
Qed.

(** *** The session registry *)

Lemma deliver_all_snoc (this : websocket_server) (evs : list session_event)
  (ev : session_event) :
  deliver_all this (evs ++ [ev]) = deliver (deliver_all this evs) ev.
Proof. unfold deliver_all. now rewrite fold_left_app. Qed.

Lemma deliver_all_app (this : websocket_server)
  (evs later : list session_event) :
  deliver_all this (evs ++ later) = deliver_all (deliver_all this evs) later.
Proof. unfold deliver_all. now rewrite fold_left_app. Qed.

Lemma elem_of_on_open (this : websocket_server) (hdl h : connection_hdl) :
  h ∈ connections_ (on_open this hdl) <-> h = hdl \/ h ∈ connections_ this.
Proof. simpl. set_solver. Qed.

Lemma elem_of_on_close (this : websocket_server) (hdl h : connection_hdl) :
  h ∈ connections_ (on_close this hdl) <-> h ∈ connections_ this /\ h <> hdl.
Proof. simpl. set_solver. Qed.

(** A handle outside the registry stays outside as long as it is not
    opened. *)
Lemma absent_until_opened (later : list session_event) :
  forall (this : websocket_server) (h : connection_hdl),
    h ∉ connections_ this ->
    opened h ∉ later ->
    h ∉ connections_ (deliver_all this later).
Proof.
  induction later as [|ev later IH]; intros this h Hout Hnot; [exact Hout|].
  change (deliver_all this (ev :: later))
    with (deliver_all (deliver this ev) later).
  apply not_elem_of_cons in Hnot as [Hev Hnot].
  apply IH; [|exact Hnot].
  destruct ev as [hdl|hdl]; cbn [deliver].
  - rewrite elem_of_on_open. intros [-> | Hin]; [now apply Hev|now apply Hout].
  - rewrite elem_of_on_close. intros [Hin _]. now apply Hout.
Qed.

(** C6. After any sequence of open and close events, delivered to any
    server, every handle is held by the registry at most once; right
    after a close event for [h] the registry does not hold [h]; and [h]
    stays out of the registry for as long as no open event for [h]
    follows. *)
Theorem session_registry_invariant (this : websocket_server)
  (evs : list session_event) :
  (forall h : connection_hdl,
      (registry_count (deliver_all this evs) h <= 1)%nat)
  /\ (forall h : connection_hdl,
         h ∉ connections_ (deliver_all this (evs ++ [closed h])))
  /\ (forall (h : connection_hdl) (later : list session_event),
         opened h ∉ later ->
         h ∉ connections_ (deliver_all this (evs ++ closed h :: later))).
Proof.
  split; [|split].
  - intros h. unfold registry_count.
    apply (proj1 (NoDup_count_occ Pos.eq_dec _)). apply NoDup_ListNoDup.
    apply NoDup_elements.
  - intros h. rewrite deliver_all_snoc. cbn [deliver].
    rewrite elem_of_on_close. now intros [_ Hne].
  - intros h later Hnot.
    change (evs ++ closed h :: later)%list
      with (evs ++ [closed h] ++ later)%list.
    rewrite app_assoc, deliver_all_app.
    apply absent_until_opened; [|exact Hnot].
    rewrite deliver_all_snoc. cbn [deliver].
    rewrite elem_of_on_close. now intros [_ Hne].
Qed.

(** C10. [on_close] is a total function of the server and the handle.
    For a handle that the registry does not hold it returns the server
    unchanged, and closing a handle a second time changes nothing
    further. *)
Theorem on_close_absent_handle_noop (this : websocket_server)
  (hdl : connection_hdl) :
  (hdl ∉ connections_ this -> on_close this hdl = this)
  /\ on_close (on_close this hdl) hdl = on_close this hdl.
Proof.
  split.
  - intros Hout. destruct this as [srv bg token reg]. unfold on_close. simpl.
    f_equal. simpl in Hout. apply set_eq. intros h.
    rewrite elem_of_difference, elem_of_singleton.
    split; [now intros [Hin _]|]. intros Hin. split; [exact Hin|].
    intros ->. now apply Hout.
  - unfold on_close. simpl. f_equal. apply set_eq. intros h.
    rewrite !elem_of_difference. tauto.
Qed.

(** *** More on the session registry *)

(** X1. Opening a connection the registry does not hold and closing it
    again gives back the server as it was; the registry grows by one
    handle on the open and is back at its size after the close. Opening a
    handle the registry already holds changes nothing. *)
Theorem on_open_on_close_round_trip (this : websocket_server)
  (hdl : connection_hdl) :
  (hdl ∉ connections_ this ->
   on_close (on_open this hdl) hdl = this
   /\ size (connections_ (on_open this hdl)) = S (size (connections_ this))
   /\ size (connections_ (on_close (on_open this hdl) hdl))
      = size (connections_ this))
  /\ (hdl ∈ connections_ this -> on_open this hdl = this).
Proof.
  split.
  - intros Hout.
    assert (Hback : on_close (on_open this hdl) hdl = this).
    { destruct this as [srv bg token reg]. unfold on_close, on_open. simpl.
      simpl in Hout. f_equal. apply set_eq. intros h.
      rewrite elem_of_difference, elem_of_union, !elem_of_singleton.
      split; [intros [[Heq|Hin] Hne]; [contradiction|exact Hin]|].
      intros Hin. split; [now right|]. intros ->. now apply Hout. }
    split; [exact Hback|]. split; [|now rewrite Hback].
    simpl. rewrite size_union by (apply disjoint_singleton_l; exact Hout).
    now rewrite size_singleton.
  - intros Hin. destruct this as [srv bg token reg]. unfold on_open. simpl.
    simpl in Hin. f_equal. apply set_eq. intros h.
    rewrite elem_of_union, elem_of_singleton.
    split; [intros [->|Hh]; assumption|now right].
Qed.

(** X2. After any run of open and close events the registry holds a
    handle exactly when the last event about that handle was an open, or,
    when no event was about it, when the registry held it before. *)
Theorem registry_holds_last_opened (evs : list session_event) :
  forall (this : websocket_server) (h : connection_hdl),
    h ∈ connections_ (deliver_all this evs) <->
    match last_event_for h evs with
    | Some (opened _) => True
    | Some (closed _) => False
    | None => h ∈ connections_ this
    end.
Proof.
  induction evs as [|ev rest IH]; intros this h; [reflexivity|].
  change (deliver_all this (ev :: rest))
    with (deliver_all (deliver this ev) rest).
  rewrite IH. simpl.
  destruct (last_event_for h rest) as [[later|later]|]; [reflexivity..|].
  destruct ev as [hdl|hdl]; cbn [deliver concerns].
  - rewrite elem_of_on_open. destruct (Pos.eqb_spec hdl h) as [->|Hne].
    + split; [trivial|now left].
    + split; [intros [->|Hin]; [contradiction|exact Hin]|now right].
  - rewrite elem_of_on_close. destruct (Pos.eqb_spec hdl h) as [->|Hne].
    + split; [now intros [_ Hne]|contradiction].
    + split; [now intros [Hin _]|]. intros Hin. split; [exact Hin|].
      intros ->. now apply Hne.
Qed.


(** *** More on the TLS context builder *)

(** X5. When the certificate file exists after a call of [on_tls_init],
    because it was there before or because the call could write it, a
    further call, by any server object and for any handle, in the world
    the first call left gives the same outcome and leaves that world as it
    is: no second certificate is generated. *)
Theorem on_tls_init_again (this that : websocket_server)
  (hdl hdl' : connection_hdl) (w : world) :
  is_Some (files (snd (on_tls_init this hdl w))
             !! websocket_certificate_file (config w)) ->
  on_tls_init that hdl' (snd (on_tls_init this hdl w))
  = on_tls_init this hdl w.
Proof.
  destruct (files w !! websocket_certificate_file (config w)) as [pem|]
    eqn:Hfile.
  - rewrite (on_tls_init_present this hdl w pem Hfile). simpl.
    intros _. apply on_tls_init_present. exact Hfile.
  - destruct (ofstream_opens (websocket_certificate_file (config w)))
      eqn:Hopens.
    + rewrite (on_tls_init_absent this hdl w Hfile Hopens). simpl.
      intros _.
      rewrite (on_tls_init_present that hdl' (world_with_new_certificate w)
                 (fst (certificate_manager_generate (entropy w)))).
      * reflexivity.
      * unfold world_with_new_certificate. simpl. apply lookup_insert_eq.
    + rewrite (on_tls_init_unopenable this hdl w Hfile Hopens). simpl.
      intros [pem Hpem]. congruence.
Qed.

(** X6. A context that [on_tls_init] returns was built from a loaded
    certificate: after the call the certificate file exists, its bytes are
    a certificate chain and a private key that the configured password
    opens, and the context uses the SSLv23 method, holds these bytes as
    its certificate chain and as its private key, has the password
    callback of the server installed and carries the process-wide
    Diffie-Hellman parameters. When after the call the file does not exist
    or its bytes are not such a chain and key, the call has thrown. *)
Theorem on_tls_init_returns_loaded_certificate (this : websocket_server)
  (hdl : connection_hdl) (w : world) :
  let o := fst (on_tls_init this hdl w) in
  let w' := snd (on_tls_init this hdl w) in
  (forall ctx : ssl_context DH,
      o = Returns ctx ->
      exists pem : string,
        files w' !! websocket_certificate_file (config w') = Some pem
        /\ pem_certificate_chain pem = true
        /\ pem_private_key pem (websocket_certificate_password (config w'))
           = true
        /\ method ctx = sslv23
        /\ certificate_chain ctx = Some pem
        /\ private_key ctx = Some pem
        /\ password_cb ctx = Some get_certificate_password_of_this
        /\ tmp_dh ctx = Some dh_params_get)
  /\ (files w' !! websocket_certificate_file (config w') = None
      \/ (exists pem : string,
             files w' !! websocket_certificate_file (config w') = Some pem
             /\ (pem_certificate_chain pem = false
                 \/ pem_private_key pem
                      (websocket_certificate_password (config w')) = false))
      -> exists e : exception, o = Throws e).
Proof.
  intros o w'. subst o w'.
  assert (Hform :
            (exists pem : string,
                files (snd (on_tls_init this hdl w))
                  !! websocket_certificate_file
                       (config (snd (on_tls_init this hdl w))) = Some pem
                /\ config (snd (on_tls_init this hdl w)) = config w
                /\ fst (on_tls_init this hdl w) = load_outcome w pem)
            \/ (files (snd (on_tls_init this hdl w))
                  !! websocket_certificate_file
                       (config (snd (on_tls_init this hdl w))) = None
                /\ exists e, fst (on_tls_init this hdl w) = Throws e)).
  { destruct (files w !! websocket_certificate_file (config w)) as [pem|]
      eqn:Hfile.
    - left. exists pem. rewrite (on_tls_init_present this hdl w pem Hfile).
      simpl. repeat split. exact Hfile.
    - destruct (ofstream_opens (websocket_certificate_file (config w)))
        eqn:Hopens.
      + left. exists (fst (certificate_manager_generate (entropy w))).
        rewrite (on_tls_init_absent this hdl w Hfile Hopens). simpl.
        repeat split. apply lookup_insert_eq.
      + right. rewrite (on_tls_init_unopenable this hdl w Hfile Hopens).
        simpl. split; [exact Hfile|]. eexists. reflexivity. }
  destruct Hform as [(pem & Hfile & Hcfg & Hout)|(Hnone & e & Hthrows)].
  - rewrite Hout, Hfile, Hcfg. unfold load_outcome. split.
    + intros ctx Hctx. exists pem. split; [reflexivity|].
      destruct (pem_certificate_chain pem); [|discriminate Hctx].
      destruct (pem_private_key pem _); [|discriminate Hctx].
      injection Hctx as <-. repeat split.
    + intros [Hnone|(pem' & [= <-] & Hbad)]; [discriminate Hnone|].
      destruct (pem_certificate_chain pem).
      * destruct Hbad as [Hbad| ->]; [discriminate Hbad|].
        eexists. reflexivity.
      * eexists. reflexivity.
  - rewrite Hthrows, Hnone. split.
    + intros ctx Hctx. discriminate Hctx.
    + intros _. now exists e.
Qed.

(** X7. [on_tls_init] never changes the configuration and never touches
    a file other than the certificate file: every write it performs is a
    write of that file. *)
Theorem on_tls_init_frame (this : websocket_server) (hdl : connection_hdl)
  (w : world) :
  let w' := snd (on_tls_init this hdl w) in
  config w' = config w
  /\ (forall path : string,
         path <> websocket_certificate_file (config w) ->
         files w' !! path = files w !! path)
  /\ (forall ev : io_event,
         ev ∈ writes_of w w' ->
         exists data : string,
           ev = file_write (websocket_certificate_file (config w)) data).
Proof.
  intros w'. subst w'.
  destruct (files w !! websocket_certificate_file (config w)) as [pem|]
    eqn:Hfile.
  - rewrite (on_tls_init_present this hdl w pem Hfile). simpl.
    repeat split. intros ev. unfold writes_of. rewrite drop_all.
    intros Hin. now apply elem_of_nil in Hin.
  - destruct (ofstream_opens (websocket_certificate_file (config w)))
      eqn:Hopens.
    + rewrite (on_tls_init_absent this hdl w Hfile Hopens). simpl.
      split; [reflexivity|]. split.
      * intros path Hne. now apply lookup_insert_ne.
      * intros ev. unfold writes_of. simpl. rewrite drop_app_length.
        intros Hin. apply list_elem_of_singleton in Hin as ->. eexists.
        reflexivity.
    + rewrite (on_tls_init_unopenable this hdl w Hfile Hopens). simpl.
      repeat split. intros ev. unfold writes_of. simpl. rewrite drop_all.
      intros Hin. now apply elem_of_nil in Hin.
Qed.

(** *** More on the constructor *)

(** X8. The constructor always returns a server whose thread is not
    started and whose registry is empty, and whose token is the access
    token the configuration holds afterwards. It leaves the files and all
    other settings alone, and the only thing it may write is that access
    token. *)
Theorem constructor_frame (w : world) :
  exists (this : websocket_server) (w' : world),
    websocket_server_new w = (Returns this, w')
    /\ configured_token_ this = websocket_access_token (config w')
    /\ bg_ this = not_a_thread
    /\ connections_ this = ∅
    /\ files w' = files w
    /\ websocket_certificate_file (config w')
       = websocket_certificate_file (config w)
    /\ websocket_certificate_password (config w')
       = websocket_certificate_password (config w)
    /\ websocket_cipher_list (config w') = websocket_cipher_list (config w)
    /\ websocket_listen_port (config w') = websocket_listen_port (config w)
    /\ (forall ev : io_event,
           ev ∈ writes_of w w' ->
           ev = config_write "websocket_access_token"
                  (configured_token_ this)).
Proof.
  destruct (string_dec (websocket_access_token (config w)) "") as [He|Hne].
  - eexists _, _. split; [apply (websocket_server_new_unconfigured w He)|].
    simpl. repeat split. intros ev. unfold writes_of. simpl.
    rewrite drop_app_length. intros Hin.
    now apply list_elem_of_singleton in Hin.
  - eexists _, _. split; [apply (websocket_server_new_configured w Hne)|].
    simpl. repeat split. intros ev. unfold writes_of. rewrite drop_all.
    intros Hin. now apply elem_of_nil in Hin.
Qed.

End Server.

(** ** The properties at the reference instances *)

Lemma on_validate_accepts_iff_token_witness :
  get_con_from_hdl (srv_ sample.server) 1%positive = Returns sample.client
  /\ on_validate sample.server 1%positive = Returns true.
Proof.
  split; [reflexivity|].
  apply (on_validate_accepts_iff_token sample.server 1%positive sample.client
           eq_refl).
  exists "hunter2". repeat split. discriminate.
Defined.

Lemma sample_rsg_generate_length :
  generates_requested_length sample.rsg_generate.
Proof.
  intros e n. unfold sample.rsg_generate. simpl. revert e.
  induction n as [|n IH]; intros e; simpl; [reflexivity|].
  now rewrite IH.
Qed.

Lemma constructor_provisions_token_witness :
  generates_requested_length sample.rsg_generate
  /\ exists (this : websocket_server) (w' : world),
       websocket_server_new sample.rsg_generate sample.fresh_install
         = (Returns this, w')
       /\ configured_token_ this = "hijklmnopqrstuvwxyza"
       /\ websocket_access_token (config w') = "hijklmnopqrstuvwxyza".
Proof.
  split; [exact sample_rsg_generate_length|].
  destruct (constructor_provisions_token sample.rsg_generate
              sample.fresh_install sample_rsg_generate_length)
    as (this & w' & Hnew & _ & Hfresh).
  exists this, w'. split; [exact Hnew|].
  destruct (Hfresh eq_refl) as (Htok & _ & Hcfg & _).
  rewrite Hcfg, Htok. split; reflexivity.
Defined.

(** C8 as worded fails where a token is already configured: neither run
    writes, so the two runs perform no persistence write instead of one. *)
Lemma provisioning_configured_token_writes_nothing :
  ~ provisions_same_token_with_one_write sample.rsg_generate
      sample.provisioned.
Proof.
  unfold provisions_same_token_with_one_write. simpl.
  intros (_ & Hone & _). discriminate Hone.
Qed.

Lemma token_provisioning_idempotent_witness :
  generates_requested_length sample.rsg_generate
  /\ exists (first second : websocket_server) (w1 w2 : world),
       websocket_server_new sample.rsg_generate sample.fresh_install
         = (Returns first, w1)
       /\ websocket_server_new sample.rsg_generate w1 = (Returns second, w2)
       /\ configured_token_ first = configured_token_ second
       /\ length (writes_of sample.fresh_install w2) = 1%nat.
Proof.
  split; [exact sample_rsg_generate_length|].
  destruct (token_provisioning_idempotent sample.rsg_generate
              sample.fresh_install sample_rsg_generate_length)
    as (first & second & w1 & w2 & H1 & H2 & Hsame & _ & _ & Hw).
  exists first, second, w1, w2. repeat split; try assumption.
  now rewrite Hw.
Defined.

(** [on_tls_init] and the notions around it at the reference instances. *)
Local Abbreviation sample_on_tls_init :=
  (on_tls_init sample.ofstream_opens sample.certificate_manager_generate
     unit tt
     sample.pem_certificate_chain sample.pem_private_key
     sample.SSL_OP_ALL sample.SSL_OP_NO_SSLv2 sample.SSL_OP_NO_SSLv3
     sample.SSL_OP_NO_TLSv1 sample.SSL_OP_SINGLE_DH_USE).

Lemma on_tls_init_keeps_existing_certificate_witness :
  is_Some (sample.provisioned.(files) !! "PicoTorrent.pem")
  /\ files (snd (sample_on_tls_init sample.server 1%positive
                   sample.provisioned))
     = files sample.provisioned.
Proof.
  assert (Hfile : is_Some (files sample.provisioned
                             !! websocket_certificate_file
                                  (config sample.provisioned)))
    by (eexists; reflexivity).
  split; [exact Hfile|].
  apply (on_tls_init_keeps_existing_certificate sample.ofstream_opens
           sample.certificate_manager_generate unit tt
           sample.pem_certificate_chain sample.pem_private_key
           sample.SSL_OP_ALL sample.SSL_OP_NO_SSLv2 sample.SSL_OP_NO_SSLv3
           sample.SSL_OP_NO_TLSv1 sample.SSL_OP_SINGLE_DH_USE
           sample.server 1%positive sample.provisioned Hfile).
Defined.

Lemma sample_certificate_bytes :
  generates_certificate_bytes sample.certificate_manager_generate.
Proof. intros e. discriminate. Qed.

(** C4 as worded fails where the stream on the configured path does not
    open: the code does not test the stream, nothing is written, and the
    certificate file is as absent after the call as it was before. *)
Lemma unopenable_path_leaves_certificate_absent :
  ~ absent_certificate_is_generated sample.ofstream_opens
      sample.certificate_manager_generate unit tt
      sample.pem_certificate_chain sample.pem_private_key
      sample.SSL_OP_ALL sample.SSL_OP_NO_SSLv2 sample.SSL_OP_NO_SSLv3
      sample.SSL_OP_NO_TLSv1 sample.SSL_OP_SINGLE_DH_USE
      sample.server 1%positive sample.missing_drive.
Proof.
  intros Hgenerated. destruct (Hgenerated eq_refl) as (data & Hdata & _).
  vm_compute in Hdata. discriminate Hdata.
Qed.

Lemma on_tls_init_generates_missing_certificate_witness :
  generates_certificate_bytes sample.certificate_manager_generate
  /\ files sample.fresh_install !! "PicoTorrent.pem" = None
  /\ sample.ofstream_opens "PicoTorrent.pem" = true
  /\ files (snd (sample_on_tls_init sample.server 1%positive
                   sample.fresh_install)) !! "PicoTorrent.pem"
     = Some "-----BEGIN hijklmnopqrstuvw".
Proof.
  split; [exact sample_certificate_bytes|]. split; [reflexivity|].
  split; [reflexivity|].
  apply (on_tls_init_generates_missing_certificate sample.ofstream_opens
           sample.certificate_manager_generate unit tt
           sample.pem_certificate_chain sample.pem_private_key
           sample.SSL_OP_ALL sample.SSL_OP_NO_SSLv2 sample.SSL_OP_NO_SSLv3
           sample.SSL_OP_NO_TLSv1 sample.SSL_OP_SINGLE_DH_USE
           sample.server 1%positive sample.fresh_install
           sample_certificate_bytes eq_refl eq_refl).
Defined.

Lemma on_tls_init_context_hardened_witness :
  exists (ctx : ssl_context unit) (w' : world),
    sample_on_tls_init sample.server 1%positive sample.provisioned
      = (Returns ctx, w')
    /\ option_set (options ctx) sample.SSL_OP_NO_TLSv1
    /\ cipher_list ctx = Some "ECDHE-RSA-AES256-GCM-SHA384:!aNULL".
Proof.
  assert (Hrun : { r : ssl_context unit * world
                   | sample_on_tls_init sample.server 1%positive
                       sample.provisioned = (Returns (fst r), snd r) }).
  { eexists (_, _). cbv. reflexivity. }
  destruct Hrun as [[ctx w'] Hrun]. simpl in Hrun.
  exists ctx, w'. split; [exact Hrun|].
  destruct (on_tls_init_context_hardened sample.ofstream_opens
              sample.certificate_manager_generate unit tt
              sample.pem_certificate_chain sample.pem_private_key
              sample.SSL_OP_ALL sample.SSL_OP_NO_SSLv2 sample.SSL_OP_NO_SSLv3
              sample.SSL_OP_NO_TLSv1 sample.SSL_OP_SINGLE_DH_USE
              sample.server 1%positive sample.provisioned w' ctx Hrun)
    as (_ & _ & Htls & _ & Hcipher & _ & _).
  split; [exact Htls|exact Hcipher].
Defined.

Lemma sample_certificate_unusable :
  certificate_unusable sample.pem_certificate_chain sample.pem_private_key
    sample.corrupt_certificate.
Proof. exists "not a certificate". split; [reflexivity|]. now left. Qed.

(** C7 as worded fails: with a certificate file that cannot be loaded the
    server is constructed and started all the same. *)
Lemma unusable_certificate_does_not_prevent_start :
  ~ unusable_certificate_prevents_start sample.rsg_generate
      sample.pem_certificate_chain sample.pem_private_key
      sample.corrupt_certificate.
Proof.
  intros Hprevents. specialize (Hprevents sample_certificate_unusable).
  simpl in Hprevents. apply Hprevents.
  eexists. split; reflexivity.
Qed.

Lemma unusable_certificate_fails_in_tls_init_witness :
  certificate_unusable sample.pem_certificate_chain sample.pem_private_key
    sample.corrupt_certificate
  /\ exists e : exception,
       sample_on_tls_init sample.server 1%positive sample.corrupt_certificate
       = (Throws e, sample.corrupt_certificate).
Proof.
  split; [exact sample_certificate_unusable|].
  apply (unusable_certificate_fails_in_tls_init sample.rsg_generate
           sample.ofstream_opens sample.certificate_manager_generate unit tt
           sample.pem_certificate_chain sample.pem_private_key
           sample.SSL_OP_ALL sample.SSL_OP_NO_SSLv2 sample.SSL_OP_NO_SSLv3
           sample.SSL_OP_NO_TLSv1 sample.SSL_OP_SINGLE_DH_USE
           sample.server 1%positive sample.corrupt_certificate
           sample_certificate_unusable).
Defined.

Lemma session_registry_invariant_witness :
  (opened 2%positive ∉ [opened 3%positive; closed 1%positive])
  /\ (2%positive ∉ connections_
        (deliver_all sample.server
           ([opened 1%positive; opened 2%positive; opened 2%positive]
            ++ closed 2%positive :: [opened 3%positive; closed 1%positive]))).
Proof.
  assert (Hlater : opened 2%positive ∉ [opened 3%positive; closed 1%positive]).
  { intros Hin. apply elem_of_cons in Hin as [Heq|Hin]; [discriminate|].
    apply elem_of_cons in Hin as [Heq|Hin]; [discriminate|].
    now apply elem_of_nil in Hin. }
  split; [exact Hlater|].
  apply (session_registry_invariant sample.server
           [opened 1%positive; opened 2%positive; opened 2%positive]).
  exact Hlater.
Defined.

Lemma on_close_absent_handle_noop_witness :
  (5%positive ∉ connections_ sample.server)
  /\ on_close sample.server 5%positive = sample.server.
Proof.
  assert (Hout : 5%positive ∉ connections_ sample.server)
    by apply not_elem_of_empty.
  split; [exact Hout|].
  exact (proj1 (on_close_absent_handle_noop sample.server 5%positive) Hout).
Defined.

(** ** The application object: properties *)

Lemma prefix_length (p : string) :
  forall s : string,
    String.prefix p s = true -> (String.length p <= String.length s)%nat.
Proof.
  induction p as [|a p IH]; intros s Hp; simpl; [lia|].
  destruct s as [|b s]; simpl in Hp; [discriminate|].
  destruct (ascii_dec a b); [|discriminate].
  simpl. apply IH in Hp. lia.
Qed.

(** [s.rfind(str, 0) == 0] tests whether [s] begins with [str]. *)
Lemma rfind_zero_prefix (s str : string) :
  cxx.rfind s str 0 = Some O <-> String.prefix str s = true.
Proof.
  unfold cxx.rfind.
  destruct (Nat.leb_spec (String.length str) (String.length s)) as [Hle|Hgt].
  - rewrite Nat.min_0_l. simpl. unfold cxx.occurs_at. simpl.
    destruct (String.prefix str s); split; congruence.
  - split; [discriminate|]. intros Hp. apply prefix_length in Hp. lia.
Qed.

Section ApplicationProperties.

Variable absolute : string -> option string.

Lemma OnCmdLineParsed_param_magnet (o : Application.options) (arg : string) :
  Application.OnCmdLineParsed_param absolute o arg =
    if is_magnet arg
    then Some {| Application.files := Application.files o;
                 Application.magnets := Application.magnets o ++ [arg] |}
    else match absolute arg with
         | Some path =>
             Some {| Application.files := Application.files o ++ [path];
                     Application.magnets := Application.magnets o |}
         | None => None
         end.
Proof.
  unfold Application.OnCmdLineParsed_param, is_magnet.
  destruct (String.prefix "magnet:?xt" arg) eqn:Hp.
  - apply rfind_zero_prefix in Hp. now rewrite Hp.
  - destruct (cxx.rfind arg "magnet:?xt" 0) as [[|n]|] eqn:Hr;
      [|reflexivity..].
    apply rfind_zero_prefix in Hr. congruence.
Qed.

(** The rounds for parameters on which [absolute] does not throw. *)
Lemma OnCmdLineParsed_app (before : list string) :
  forall (o : Application.options) (rest : list string),
    paths_resolve absolute before ->
    Application.OnCmdLineParsed absolute o (before ++ rest) =
      Application.OnCmdLineParsed absolute (sorted_into absolute o before)
        rest
    /\ length (omap absolute
                 (List.filter (fun a => negb (is_magnet a)) before))
       = length (List.filter (fun a => negb (is_magnet a)) before).
Proof.
  induction before as [|arg before IH]; intros o rest Hok.
  - unfold sorted_into. simpl. rewrite !app_nil_r. now destruct o.
  - apply Forall_cons in Hok as [Harg Hok].
    cbn [app Application.OnCmdLineParsed List.filter].
    rewrite OnCmdLineParsed_param_magnet.
    destruct (is_magnet arg) eqn:Hmagnet.
    + destruct (IH {| Application.files := Application.files o;
                      Application.magnets :=
                        Application.magnets o ++ [arg] |} rest Hok)
        as [Hrun Hlen].
      rewrite Hrun. split.
      * f_equal. unfold sorted_into.
        cbn [Application.files Application.magnets List.filter].
        rewrite Hmagnet. cbn [negb]. now rewrite <- app_assoc.
      * cbn [negb]. exact Hlen.
    + destruct (Harg eq_refl) as [path Hpath]. rewrite Hpath.
      destruct (IH {| Application.files := Application.files o ++ [path];
                      Application.magnets := Application.magnets o |}
                  rest Hok) as [Hrun Hlen].
      rewrite Hrun. split.
      * f_equal. unfold sorted_into.
        cbn [Application.files Application.magnets List.filter].
        rewrite Hmagnet. cbn [negb]. cbn. rewrite Hpath.
        now rewrite <- app_assoc.
      * cbn. rewrite Hpath. cbn [length]. f_equal. exact Hlen.
Qed.

(** X9. As long as [std::filesystem::absolute] does not throw for a
    parameter that is not a magnet link, [OnCmdLineParsed] sorts the
    parameters: those that begin with ["magnet:?xt"] are appended to the
    magnet links as they are, all others are appended to the files as
    absolute paths, both in the order given, none lost and none counted
    twice; with all parameters sorted it answers [true]. At the first
    parameter for which [absolute] throws the function is left by that
    exception: the parameters before it have been sorted, and neither it
    nor any later parameter is taken up. *)
Theorem OnCmdLineParsed_sorts_parameters (o : Application.options)
  (before : list string) :
  paths_resolve absolute before ->
  Application.OnCmdLineParsed absolute o before
  = Application.returned true (sorted_into absolute o before)
  /\ (length (Application.files (sorted_into absolute o before))
      + length (Application.magnets (sorted_into absolute o before))
      = length (Application.files o) + length (Application.magnets o)
        + length before)%nat
  /\ (forall (bad : string) (after : list string),
         is_magnet bad = false ->
         absolute bad = None ->
         Application.OnCmdLineParsed absolute o (before ++ bad :: after)
         = Application.thrown (sorted_into absolute o before)).
Proof.
  intros Hok. split; [|split].
  - destruct (OnCmdLineParsed_app before o [] Hok) as [Hrun _].
    rewrite app_nil_r in Hrun. exact Hrun.
  - destruct (OnCmdLineParsed_app before o [] Hok) as [_ Hlen].
    unfold sorted_into. cbn [Application.files Application.magnets].
    rewrite !length_app, Hlen.
    pose proof (List.filter_length is_magnet before) as Hsplit. lia.
  - intros bad after Hbad Hthrows.
    destruct (OnCmdLineParsed_app before o (bad :: after) Hok) as [Hrun _].
    rewrite Hrun. cbn [Application.OnCmdLineParsed].
    rewrite OnCmdLineParsed_param_magnet, Hbad, Hthrows. reflexivity.
Qed.

End ApplicationProperties.

Section PluginProperties.

Variable IPlugin : Type.
Variable Load : Application.directory_entry -> option IPlugin.

Lemma load_plugin_candidate (m_plugins : list IPlugin)
  (p : Application.directory_entry) :
  Application.load_plugin IPlugin Load m_plugins p =
    if plugin_candidate p
    then (m_plugins ++ match Load p with
                       | Some plugin => [plugin]
                       | None => []
                       end)%list
    else m_plugins.
Proof.
  unfold Application.load_plugin, plugin_candidate, cxx.substr.
  destruct (String.eqb (Application.extension p) ".dll"); [|reflexivity].
  cbn [negb andb].
  destruct (String.prefix "Plugin" (Application.filename p)) eqn:Hp.
  - pose proof (prefix_length _ _ Hp) as Hlen.
    apply String.prefix_correct in Hp. cbn [String.length] in Hp, Hlen.
    destruct (Nat.ltb_spec (String.length (Application.filename p)) 6);
      [lia|].
    rewrite Hp, String.eqb_refl. cbn [negb].
    destruct (Load p); [reflexivity|now rewrite app_nil_r].
  - destruct (String.length (Application.filename p) <? 6)%nat;
      [reflexivity|].
    destruct (String.eqb_spec
                (String.substring 0 6 (Application.filename p)) "Plugin")
      as [Heq|Hne]; [|reflexivity].
    assert (String.prefix "Plugin" (Application.filename p) = true)
      by now apply String.prefix_correct.
    congruence.
Qed.

(** X10. The plugin loop hands to the loader exactly the directory
    entries whose extension is [".dll"] and whose file name begins with
    ["Plugin"], and appends the plugins the loader answers, in directory
    order, to those already held; an entry of any other name is never
    loaded. *)
Theorem load_plugins_candidates (entries : list Application.directory_entry) :
  forall m_plugins : list IPlugin,
    Application.load_plugins IPlugin Load m_plugins entries =
      (m_plugins ++ omap Load (List.filter plugin_candidate entries))%list.
Proof.
  unfold Application.load_plugins.
  induction entries as [|p entries IH]; intros m_plugins.
  - simpl. now rewrite app_nil_r.
  - cbn [fold_left List.filter]. rewrite IH, load_plugin_candidate.
    destruct (plugin_candidate p); [|reflexivity].
    destruct (Load p) as [plugin|] eqn:Hload.
    + rewrite <- app_assoc. f_equal. cbn. now rewrite Hload.
    + rewrite app_nil_r. f_equal. cbn. now rewrite Hload.
Qed.

End PluginProperties.

(** ** The add-torrent dialog: properties *)

(** *** Single-bit flags *)

Lemma land_pow2 (flags k : Z) :
  0 <= k ->
  Z.land flags (2 ^ k) = if Z.testbit flags k then 2 ^ k else 0.
Proof.
  intros Hk. apply Z.bits_inj'. intros n Hn.
  rewrite Z.land_spec, Z.pow2_bits_eqb by exact Hk.
  destruct (Z.eqb_spec k n) as [->|Hne].
  - destruct (Z.testbit flags n) eqn:Hbit; simpl.
    + rewrite Z.pow2_bits_eqb by exact Hn. symmetry. apply Z.eqb_refl.
    + symmetry. apply Z.bits_0.
  - rewrite andb_false_r. destruct (Z.testbit flags k).
    + rewrite Z.pow2_bits_eqb by exact Hk. symmetry. now apply Z.eqb_neq.
    + symmetry. apply Z.bits_0.
Qed.

Lemma has_flag_pow2 (flags k : Z) :
  0 <= k -> lt.has_flag flags (2 ^ k) = Z.testbit flags k.
Proof.
  intros Hk. unfold lt.has_flag. rewrite land_pow2 by exact Hk.
  assert (0 < 2 ^ k) by now apply Z.pow_pos_nonneg.
  destruct (Z.testbit flags k).
  - apply Z.eqb_refl.
  - apply Z.eqb_neq. lia.
Qed.

Lemma testbit_set_flag (flags j k : Z) :
  0 <= j ->
  Z.testbit (Z.lor flags (2 ^ j)) k = Z.testbit flags k || (j =? k).
Proof. intros Hj. now rewrite Z.lor_spec, Z.pow2_bits_eqb. Qed.

Lemma testbit_clear_flag (flags j k : Z) :
  0 <= j -> 0 <= k < 64 ->
  Z.testbit (Z.land flags (lt.complement (2 ^ j))) k
  = Z.testbit flags k && negb (j =? k).
Proof.
  intros Hj Hk. unfold lt.complement.
  rewrite !Z.land_spec, Z.lnot_spec, Z.pow2_bits_eqb by lia.
  rewrite Z.ones_spec_low by lia. now rewrite andb_true_r.
Qed.

(** Goals about single bits: positions are compared, then the bits are
    looked at. *)
Ltac flag_bits :=
  rewrite ?Z.eqb_refl;
  repeat match goal with
         | |- context [Z.eqb ?a ?b] =>
             destruct (Z.eqb_spec a b); [exfalso; congruence|]
         end;
  repeat match goal with
         | |- context [Z.testbit ?f ?k] => destruct (Z.testbit f k)
         end;
  reflexivity.

Section DialogProperties.

Context {L : lt.library}.
Variable toHumanFileSize : Z -> string.

Local Abbreviation Load := (AddTorrentDialog.Load toHumanFileSize).
Local Abbreviation GetTorrentDisplaySize :=
  (AddTorrentDialog.GetTorrentDisplaySize toHumanFileSize).

(** What the start-torrent handler makes of the flags. *)
Lemma start_flags_bits (flags : Z) (checked : bool) :
  torrent_flag_bits L ->
  let flags' :=
    if checked
    then Z.land (Z.lor flags lt.auto_managed) (lt.complement lt.paused)
    else Z.lor (Z.land flags (lt.complement lt.auto_managed)) lt.paused in
  lt.has_flag flags' lt.auto_managed = checked
  /\ lt.has_flag flags' lt.paused = negb checked
  /\ lt.has_flag flags' lt.sequential_download
     = lt.has_flag flags lt.sequential_download
  /\ (forall k : Z,
         0 <= k < 64 -> 2 ^ k <> lt.paused -> 2 ^ k <> lt.auto_managed ->
         Z.testbit flags' k = Z.testbit flags k).
Proof.
  intros ((kp & Hkp & Hp) & (ka & Hka & Ha) & (ks & Hks & Hs)
          & Hpa & Hps & Has).
  rewrite Hp, Ha, Hs in *. intros flags'. subst flags'.
  rewrite !has_flag_pow2 by lia.
  destruct checked; (split; [|split; [|split]]); try intros k Hk Hkp' Hka';
    rewrite ?testbit_clear_flag, ?testbit_set_flag, ?testbit_clear_flag
      by lia;
    flag_bits.
Qed.

(** What the sequential-download handler makes of the flags. *)
Lemma sequential_flags_bits (flags : Z) (checked : bool) :
  torrent_flag_bits L ->
  let flags' :=
    if checked
    then Z.lor flags lt.sequential_download
    else Z.land flags (lt.complement lt.sequential_download) in
  lt.has_flag flags' lt.sequential_download = checked
  /\ lt.has_flag flags' lt.paused = lt.has_flag flags lt.paused
  /\ lt.has_flag flags' lt.auto_managed = lt.has_flag flags lt.auto_managed
  /\ (forall k : Z,
         0 <= k < 64 -> 2 ^ k <> lt.sequential_download ->
         Z.testbit flags' k = Z.testbit flags k).
Proof.
  intros ((kp & Hkp & Hp) & (ka & Hka & Ha) & (ks & Hks & Hs)
          & Hpa & Hps & Has).
  rewrite Hp, Ha, Hs in *. intros flags'. subst flags'.
  rewrite !has_flag_pow2 by lia.
  destruct checked; (split; [|split; [|split]]); try intros k Hk Hks';
    rewrite ?testbit_clear_flag, ?testbit_set_flag by lia;
    flag_bits.
Qed.

(** *** The check boxes *)

Lemma at_int_Some {A : Type} (v : list A) (idx : Z) (a : A) :
  AddTorrentDialog.at_int v idx = Some a ->
  0 <= idx /\ v !! Z.to_nat idx = Some a
  /\ (Z.to_nat idx < length v)%nat.
Proof.
  unfold AddTorrentDialog.at_int. destruct (Z.ltb_spec idx 0); [discriminate|].
  intros Hlook. split; [assumption|]. split; [assumption|].
  now apply lookup_lt_Some in Hlook.
Qed.

(** A handler on the selected parameters, and what [Load] shows after
    it. *)
Lemma on_selected_then_Load
  (f : lt.add_torrent_params.t -> lt.add_torrent_params.t)
  (d : AddTorrentDialog.dialog) (params : lt.add_torrent_params.t) :
  AddTorrentDialog.at_int (AddTorrentDialog.m_params d)
    (AddTorrentDialog.selection d) = Some params ->
  let n := Z.to_nat (AddTorrentDialog.selection d) in
  let d' :=
    AddTorrentDialog.with_m_params d
      (<[n := f params]> (AddTorrentDialog.m_params d)) in
  AddTorrentDialog.on_selected f d = completed d'
  /\ AddTorrentDialog.m_params d' !! n = Some (f params)
  /\ exists shown : AddTorrentDialog.dialog,
       Load d' n = completed shown
       /\ AddTorrentDialog.m_params shown = AddTorrentDialog.m_params d'
       /\ AddTorrentDialog.m_torrentName shown
          = AddTorrentDialog.GetTorrentDisplayName (f params)
       /\ AddTorrentDialog.m_torrentSize shown
          = GetTorrentDisplaySize (f params)
       /\ AddTorrentDialog.m_torrentInfoHash shown
          = AddTorrentDialog.GetTorrentDisplayInfoHash (f params)
       /\ AddTorrentDialog.m_torrentComment shown
          = AddTorrentDialog.GetTorrentDisplayComment (f params)
       /\ AddTorrentDialog.m_torrentSavePath shown
          = lt.add_torrent_params.save_path (f params)
       /\ AddTorrentDialog.m_sequentialDownload shown
          = lt.has_flag (lt.add_torrent_params.flags (f params))
              lt.sequential_download
       /\ AddTorrentDialog.m_startTorrent shown
          = AddTorrentDialog.start_shown
              (lt.add_torrent_params.flags (f params)).
Proof.
  intros Hat n d'.
  destruct (at_int_Some _ _ _ Hat) as (Hsel & Hlook & Hlt).
  assert (Hnew : AddTorrentDialog.m_params d' !! n = Some (f params)).
  { subst d'. simpl. now apply list_lookup_insert_eq. }
  split; [unfold AddTorrentDialog.on_selected; now rewrite Hat|].
  split; [exact Hnew|].
  unfold AddTorrentDialog.Load. rewrite Hnew. eexists. split; [reflexivity|].
  simpl. repeat split.
Qed.

(** X11. When a torrent is selected, the handler of the start-torrent
    check box changes the flags of that torrent such that [Load] gives the
    check box the very state the user left it in; everything else [Load]
    shows (name, size, info hash, comment, save path, sequential
    download) is as it would have been shown before the handler ran. *)
Theorem start_check_box_round_trip (d : AddTorrentDialog.dialog)
  (params : lt.add_torrent_params.t) :
  torrent_flag_bits L ->
  AddTorrentDialog.at_int (AddTorrentDialog.m_params d)
    (AddTorrentDialog.selection d) = Some params ->
  exists d' shown : AddTorrentDialog.dialog,
    AddTorrentDialog.OnStartTorrent d = completed d'
    /\ Load d' (Z.to_nat (AddTorrentDialog.selection d)) = completed shown
    /\ AddTorrentDialog.m_startTorrent shown
       = AddTorrentDialog.m_startTorrent d
    /\ AddTorrentDialog.m_sequentialDownload shown
       = lt.has_flag (lt.add_torrent_params.flags params)
           lt.sequential_download
    /\ AddTorrentDialog.m_torrentName shown
       = AddTorrentDialog.GetTorrentDisplayName params
    /\ AddTorrentDialog.m_torrentSize shown = GetTorrentDisplaySize params
    /\ AddTorrentDialog.m_torrentInfoHash shown
       = AddTorrentDialog.GetTorrentDisplayInfoHash params
    /\ AddTorrentDialog.m_torrentComment shown
       = AddTorrentDialog.GetTorrentDisplayComment params
    /\ AddTorrentDialog.m_torrentSavePath shown
       = lt.add_torrent_params.save_path params.
Proof.
  intros Hbits Hat. unfold AddTorrentDialog.OnStartTorrent.
  match goal with
  | |- context [AddTorrentDialog.on_selected ?f d] =>
      destruct (on_selected_then_Load f d params Hat)
        as (Hrun & _ & shown & Hload & _ & Hname & Hsize & Hhash & Hcomment
            & Hpath & Hseq & Hstart)
  end.
  eexists _, shown. split; [exact Hrun|]. split; [exact Hload|].
  destruct (start_flags_bits (lt.add_torrent_params.flags params)
              (AddTorrentDialog.m_startTorrent d) Hbits)
    as (Hauto & Hpaused & Hsequential & _).
  split.
  - rewrite Hstart. unfold AddTorrentDialog.start_shown. simpl.
    rewrite Hauto, Hpaused.
    now destruct (AddTorrentDialog.m_startTorrent d).
  - split; [rewrite Hseq; exact Hsequential|].
    repeat split; assumption.
Qed.

(** X12. When a torrent is selected, the handler of the
    sequential-download check box changes the flags of that torrent such
    that [Load] gives the check box the very state the user left it in;
    the start check box and everything else [Load] shows are as they would
    have been shown before the handler ran. *)
Theorem sequential_check_box_round_trip (d : AddTorrentDialog.dialog)
  (params : lt.add_torrent_params.t) :
  torrent_flag_bits L ->
  AddTorrentDialog.at_int (AddTorrentDialog.m_params d)
    (AddTorrentDialog.selection d) = Some params ->
  exists d' shown : AddTorrentDialog.dialog,
    AddTorrentDialog.OnSequentialDownload d = completed d'
    /\ Load d' (Z.to_nat (AddTorrentDialog.selection d)) = completed shown
    /\ AddTorrentDialog.m_sequentialDownload shown
       = AddTorrentDialog.m_sequentialDownload d
    /\ AddTorrentDialog.m_startTorrent shown
       = AddTorrentDialog.start_shown (lt.add_torrent_params.flags params)
    /\ AddTorrentDialog.m_torrentName shown
       = AddTorrentDialog.GetTorrentDisplayName params
    /\ AddTorrentDialog.m_torrentSize shown = GetTorrentDisplaySize params
    /\ AddTorrentDialog.m_torrentInfoHash shown
       = AddTorrentDialog.GetTorrentDisplayInfoHash params
    /\ AddTorrentDialog.m_torrentComment shown
       = AddTorrentDialog.GetTorrentDisplayComment params
    /\ AddTorrentDialog.m_torrentSavePath shown
       = lt.add_torrent_params.save_path params.
Proof.
  intros Hbits Hat. unfold AddTorrentDialog.OnSequentialDownload.
  match goal with
  | |- context [AddTorrentDialog.on_selected ?f d] =>
      destruct (on_selected_then_Load f d params Hat)
        as (Hrun & _ & shown & Hload & _ & Hname & Hsize & Hhash & Hcomment
            & Hpath & Hseq & Hstart)
  end.
  eexists _, shown. split; [exact Hrun|]. split; [exact Hload|].
  destruct (sequential_flags_bits (lt.add_torrent_params.flags params)
              (AddTorrentDialog.m_sequentialDownload d) Hbits)
    as (Hsequential & Hpaused & Hauto & _).
  split; [rewrite Hseq; exact Hsequential|]. split.
  - rewrite Hstart. unfold AddTorrentDialog.start_shown. simpl.
    now rewrite Hauto, Hpaused.
  - repeat split; assumption.
Qed.

(** X13. The handler of the start-torrent check box throws, changing
    nothing, when no torrent is selected. Otherwise it changes the flags of
    the selected torrent only: with the box checked [auto_managed] is set
    and [paused] is not, with the box unchecked [paused] is set and
    [auto_managed] is not, and every other bit of the flags, every other
    member of the torrent and every other torrent is as before. *)
Theorem start_handler_sets_one_flag (d : AddTorrentDialog.dialog) :
  torrent_flag_bits L ->
  match AddTorrentDialog.at_int (AddTorrentDialog.m_params d)
          (AddTorrentDialog.selection d) with
  | None => AddTorrentDialog.OnStartTorrent d = threw d
  | Some params =>
      exists flags' : Z,
        AddTorrentDialog.OnStartTorrent d =
          completed
            (AddTorrentDialog.with_m_params d
               (<[Z.to_nat (AddTorrentDialog.selection d) :=
                    lt.add_torrent_params.with_flags params flags']>
                  (AddTorrentDialog.m_params d)))
        /\ lt.has_flag flags' lt.auto_managed
           = AddTorrentDialog.m_startTorrent d
        /\ lt.has_flag flags' lt.paused
           = negb (AddTorrentDialog.m_startTorrent d)
        /\ (forall k : Z,
               0 <= k < 64 ->
               2 ^ k <> lt.paused -> 2 ^ k <> lt.auto_managed ->
               Z.testbit flags' k
               = Z.testbit (lt.add_torrent_params.flags params) k)
  end.
Proof.
  intros Hbits.
  destruct (AddTorrentDialog.at_int (AddTorrentDialog.m_params d)
              (AddTorrentDialog.selection d)) as [params|] eqn:Hat.
  - unfold AddTorrentDialog.OnStartTorrent, AddTorrentDialog.on_selected.
    rewrite Hat. eexists. split; [reflexivity|].
    destruct (start_flags_bits (lt.add_torrent_params.flags params)
                (AddTorrentDialog.m_startTorrent d) Hbits)
      as (Hauto & Hpaused & _ & Hrest).
    repeat split; assumption.
  - unfold AddTorrentDialog.OnStartTorrent, AddTorrentDialog.on_selected.
    now rewrite Hat.
Qed.

End DialogProperties.

(** *** File priorities *)

Section PriorityProperties.

Context {L : lt.library}.

Abbreviation nonnegative := (Forall (fun idx : Z => 0 <= idx)).

Lemma SetFilePriorities_index_nonneg (prio : Z) (fp : list Z) (idx : Z) :
  0 <= idx ->
  exists fp' : list Z,
    AddTorrentDialog.SetFilePriorities_index prio fp idx = completed fp'
    /\ length fp' = Nat.max (length fp) (S (Z.to_nat idx))
    /\ forall i : nat,
         AddTorrentDialog.effective_priority fp' i =
           if decide (i = Z.to_nat idx) then prio
           else AddTorrentDialog.effective_priority fp i.
Proof.
  intros Hidx. unfold AddTorrentDialog.SetFilePriorities_index.
  destruct (Z.ltb_spec idx (-1)) as [Hlow|_]; [lia|].
  destruct (Z.eqb_spec idx (-1)) as [Hminus|_]; [lia|].
  set (n := Z.to_nat idx). eexists. split; [reflexivity|].
  unfold AddTorrentDialog.effective_priority.
  destruct (Nat.leb_spec (length fp) n) as [Hshort|Hlong].
  - split; [rewrite length_insert, length_resize; lia|].
    intros i. destruct (decide (i = n)) as [->|Hne].
    + rewrite list_lookup_insert_eq; [reflexivity|].
      rewrite length_resize. lia.
    + rewrite list_lookup_insert_ne by congruence.
      destruct (Nat.lt_ge_cases i (length fp)) as [Hin|Hout].
      * rewrite lookup_resize by lia. reflexivity.
      * rewrite (lookup_ge_None_2 fp i) by lia.
        destruct (Nat.lt_ge_cases i (S n)) as [Hnew|Hpast].
        -- rewrite lookup_resize_new by lia. reflexivity.
        -- rewrite lookup_resize_old by lia. reflexivity.
  - split; [rewrite length_insert; lia|].
    intros i. destruct (decide (i = n)) as [->|Hne].
    + rewrite list_lookup_insert_eq by lia. reflexivity.
    + rewrite list_lookup_insert_ne by congruence. reflexivity.
Qed.

Lemma needed_size_ge (idxs : list Z) (idx : Z) :
  idx ∈ idxs -> (S (Z.to_nat idx) <= needed_size idxs)%nat.
Proof.
  induction idxs as [|x idxs IH]; intros Hin.
  - now apply elem_of_nil in Hin.
  - apply elem_of_cons in Hin as [->|Hin]; simpl; [lia|].
    specialize (IH Hin). lia.
Qed.

(** The loop of [SetFilePriorities] over file indices none of which is
    negative. *)
Lemma SetFilePriorities_loop_nonneg (prio : Z) (idxs : list Z) :
  forall fp : list Z,
    nonnegative idxs ->
    exists fp' : list Z,
      AddTorrentDialog.SetFilePriorities_loop prio fp idxs = completed fp'
      /\ length fp' = Nat.max (length fp) (needed_size idxs)
      /\ forall i : nat,
           AddTorrentDialog.effective_priority fp' i =
             if decide (Z.of_nat i ∈ idxs) then prio
             else AddTorrentDialog.effective_priority fp i.
Proof.
  induction idxs as [|idx idxs IH]; intros fp Hnn.
  - exists fp. split; [reflexivity|]. split; [simpl; lia|].
    intros i. destruct (decide (Z.of_nat i ∈ [])) as [Hin|_]; [|reflexivity].
    now apply elem_of_nil in Hin.
  - apply Forall_cons in Hnn as [Hidx Hnn].
    destruct (SetFilePriorities_index_nonneg prio fp idx Hidx)
      as (fp1 & Hstep & Hlen1 & Heff1).
    destruct (IH fp1 Hnn) as (fp' & Hloop & Hlen & Heff).
    exists fp'. cbn [AddTorrentDialog.SetFilePriorities_loop].
    rewrite Hstep. split; [exact Hloop|].
    split; [rewrite Hlen, Hlen1; simpl; lia|].
    intros i. rewrite Heff, Heff1.
    destruct (decide (Z.of_nat i ∈ idxs)) as [Hin|Hout].
    + rewrite decide_True by (now apply elem_of_cons; right). reflexivity.
    + destruct (decide (i = Z.to_nat idx)) as [->|Hne].
      * rewrite decide_True; [reflexivity|].
        apply elem_of_cons. left. lia.
      * rewrite decide_False; [reflexivity|].
        intros Hin. apply elem_of_cons in Hin as [Heq|Hin]; [|contradiction].
        apply Hne. lia.
Qed.

(** A vector that already holds [prio] for each of the file indices is
    left as it is. *)
Lemma SetFilePriorities_loop_id (prio : Z) (idxs : list Z) (fp : list Z) :
  Forall (fun idx => 0 <= idx /\ fp !! Z.to_nat idx = Some prio) idxs ->
  AddTorrentDialog.SetFilePriorities_loop prio fp idxs = completed fp.
Proof.
  induction idxs as [|idx idxs IH]; intros Hall; [reflexivity|].
  apply Forall_cons in Hall as [[Hidx Hheld] Hall].
  cbn [AddTorrentDialog.SetFilePriorities_loop].
  unfold AddTorrentDialog.SetFilePriorities_index.
  destruct (Z.ltb_spec idx (-1)); [lia|].
  destruct (Z.eqb_spec idx (-1)); [lia|].
  pose proof (lookup_lt_Some _ _ _ Hheld) as Hlt.
  destruct (Nat.leb_spec (length fp) (Z.to_nat idx)); [lia|].
  rewrite list_insert_id by exact Hheld. now apply IH.
Qed.

Variable wxDataViewItem : Type.
Variable GetFileIndices : list wxDataViewItem -> list Z.

(** X14. With a torrent selected and file indices none of which is
    negative, [SetFilePriorities] runs to its end and changes the priority
    vector of the selected torrent only. Afterwards each of the files
    counts with the priority [prio], and every other file counts with the
    priority it counted with before, where a file the vector has no entry
    for counts with the default priority. *)
Theorem SetFilePriorities_effective (d : AddTorrentDialog.dialog)
  (param : lt.add_torrent_params.t) (items : list wxDataViewItem)
  (prio : Z) :
  AddTorrentDialog.at_int (AddTorrentDialog.m_params d)
    (AddTorrentDialog.selection d) = Some param ->
  nonnegative (GetFileIndices items) ->
  exists fp' : list Z,
    AddTorrentDialog.SetFilePriorities wxDataViewItem GetFileIndices d items
      prio
    = completed
        (AddTorrentDialog.with_m_params d
           (<[Z.to_nat (AddTorrentDialog.selection d) :=
                lt.add_torrent_params.with_file_priorities param fp']>
              (AddTorrentDialog.m_params d)))
    /\ forall i : nat,
         AddTorrentDialog.effective_priority fp' i =
           if decide (Z.of_nat i ∈ GetFileIndices items) then prio
           else AddTorrentDialog.effective_priority
                  (lt.add_torrent_params.file_priorities param) i.
Proof.
  intros Hat Hnn.
  destruct (SetFilePriorities_loop_nonneg prio (GetFileIndices items)
              (lt.add_torrent_params.file_priorities param) Hnn)
    as (fp' & Hloop & _ & Heff).
  exists fp'. split; [|exact Heff].
  unfold AddTorrentDialog.SetFilePriorities. now rewrite Hat, Hloop.
Qed.

(** X15. For file indices none of which is negative the loop of
    [SetFilePriorities] never shortens the priority vector: it leaves a
    vector exactly as long as the longer of the old vector and what the
    largest file index needs. Running the loop again with the same
    priority and indices changes nothing. *)
Theorem SetFilePriorities_grows_once (prio : Z) (fp idxs : list Z) :
  nonnegative idxs ->
  exists fp' : list Z,
    AddTorrentDialog.SetFilePriorities_loop prio fp idxs = completed fp'
    /\ length fp' = Nat.max (length fp) (needed_size idxs)
    /\ (forall idx : Z, idx ∈ idxs -> fp' !! Z.to_nat idx = Some prio)
    /\ AddTorrentDialog.SetFilePriorities_loop prio fp' idxs = completed fp'.
Proof.
  intros Hnn.
  destruct (SetFilePriorities_loop_nonneg prio idxs fp Hnn)
    as (fp' & Hloop & Hlen & Heff).
  exists fp'. split; [exact Hloop|]. split; [exact Hlen|].
  assert (Hheld : forall idx : Z,
             idx ∈ idxs -> fp' !! Z.to_nat idx = Some prio).
  { intros idx Hin.
    assert (Hidx : 0 <= idx) by now apply (proj1 (Forall_forall _ _) Hnn).
    pose proof (needed_size_ge idxs idx Hin) as Hneed.
    destruct (fp' !! Z.to_nat idx) as [p|] eqn:Hlook.
    - specialize (Heff (Z.to_nat idx)).
      unfold AddTorrentDialog.effective_priority in Heff at 1.
      rewrite Hlook in Heff. rewrite Heff.
      rewrite decide_True; [reflexivity|]. now rewrite Z2Nat.id.
    - apply lookup_ge_None in Hlook. lia. }
  split; [exact Hheld|].
  apply SetFilePriorities_loop_id. apply Forall_forall. intros idx Hin.
  split; [now apply (proj1 (Forall_forall _ _) Hnn)|now apply Hheld].
Qed.

Lemma allSamePrio_nonneg (first : Z) (fp idxs : list Z) :
  nonnegative idxs ->
  AddTorrentDialog.allSamePrio first fp idxs =
    Some (forallb
            (fun idx =>
               first
               =? AddTorrentDialog.effective_priority fp (Z.to_nat idx))
            idxs).
Proof.
  induction idxs as [|idx idxs IH]; intros Hnn; [reflexivity|].
  apply Forall_cons in Hnn as [Hidx Hnn].
  cbn [AddTorrentDialog.allSamePrio forallb].
  unfold AddTorrentDialog.compared_priority.
  destruct (Z.ltb_spec idx (-1)); [lia|].
  destruct (Z.eqb_spec idx (-1)); [lia|].
  destruct (first =? _); [now apply IH|reflexivity].
Qed.

Lemma firstPrio_in_bounds (fp : list Z) (idx : Z) (rest : list Z) :
  0 <= idx ->
  fp = [] \/ (Z.to_nat idx < length fp)%nat ->
  AddTorrentDialog.firstPrio fp (idx :: rest) =
    Some (AddTorrentDialog.effective_priority fp (Z.to_nat idx)).
Proof.
  intros Hidx [->|Hlt]; [reflexivity|].
  unfold AddTorrentDialog.firstPrio, AddTorrentDialog.at_int,
    AddTorrentDialog.effective_priority.
  destruct (Nat.ltb_spec 0 (length fp)); [|lia].
  destruct (Z.ltb_spec idx 0); [lia|].
  destruct (lookup_lt_is_Some_2 fp (Z.to_nat idx) Hlt) as [p Hp].
  now rewrite Hp.
Qed.

(** The check marks of the menu for file indices that all count with the
    priority [first], the first of them. *)
Lemma priority_menu_checks_in_bounds (fp : list Z) (idx : Z)
  (rest : list Z) :
  nonnegative (idx :: rest) ->
  fp = [] \/ (Z.to_nat idx < length fp)%nat ->
  let first := AddTorrentDialog.effective_priority fp (Z.to_nat idx) in
  let same :=
    forallb
      (fun i => first =? AddTorrentDialog.effective_priority fp (Z.to_nat i))
      (idx :: rest) in
  AddTorrentDialog.priority_menu_checks fp (idx :: rest) =
    Some {| AddTorrentDialog.maximum := same && (first =? lt.top_priority);
            AddTorrentDialog.normal :=
              same && (first =? lt.default_priority);
            AddTorrentDialog.low := same && (first =? lt.low_priority);
            AddTorrentDialog.do_not_download :=
              same && (first =? lt.dont_download) |}.
Proof.
  intros Hnn Hbound first same.
  unfold AddTorrentDialog.priority_menu_checks.
  rewrite firstPrio_in_bounds;
    [|now apply Forall_cons in Hnn as [Hidx _]|exact Hbound].
  now rewrite allSamePrio_nonneg.
Qed.

Lemma all_same_priority (fp : list Z) (idx : Z) (rest : list Z) (p : Z) :
  let first := AddTorrentDialog.effective_priority fp (Z.to_nat idx) in
  forallb
    (fun i => first =? AddTorrentDialog.effective_priority fp (Z.to_nat i))
    (idx :: rest) && (first =? p) = true
  <-> forall i : Z,
        i ∈ idx :: rest ->
        AddTorrentDialog.effective_priority fp (Z.to_nat i) = p.
Proof.
  intros first. rewrite andb_true_iff, forallb_forall, Z.eqb_eq. split.
  - intros [Hsame Hfirst] i Hin. apply list_elem_of_In in Hin.
    specialize (Hsame i Hin). apply Z.eqb_eq in Hsame. congruence.
  - intros Hall.
    assert (Hfirst : first = p) by (apply Hall; apply elem_of_cons; now left).
    split; [|exact Hfirst]. intros i Hin. apply list_elem_of_In in Hin.
    apply Z.eqb_eq. rewrite (Hall i Hin). exact Hfirst.
Qed.

(** X16. For a selection of files, none with a negative index, whose
    first index has an entry in the priority vector (or with an empty
    vector), the priority menu gets its check marks without reading
    outside of the vector: an entry is checked exactly when every selected
    file counts with the priority of that entry, and, the four priorities
    being different values, at most one entry is checked. *)
Theorem priority_menu_checks_all_same (fp : list Z) (idx : Z)
  (rest : list Z) :
  nonnegative (idx :: rest) ->
  fp = [] \/ (Z.to_nat idx < length fp)%nat ->
  exists checks : AddTorrentDialog.priority_menu,
    AddTorrentDialog.priority_menu_checks fp (idx :: rest) = Some checks
    /\ (AddTorrentDialog.maximum checks = true <->
        forall i : Z, i ∈ idx :: rest ->
          AddTorrentDialog.effective_priority fp (Z.to_nat i)
          = lt.top_priority)
    /\ (AddTorrentDialog.normal checks = true <->
        forall i : Z, i ∈ idx :: rest ->
          AddTorrentDialog.effective_priority fp (Z.to_nat i)
          = lt.default_priority)
    /\ (AddTorrentDialog.low checks = true <->
        forall i : Z, i ∈ idx :: rest ->
          AddTorrentDialog.effective_priority fp (Z.to_nat i)
          = lt.low_priority)
    /\ (AddTorrentDialog.do_not_download checks = true <->
        forall i : Z, i ∈ idx :: rest ->
          AddTorrentDialog.effective_priority fp (Z.to_nat i)
          = lt.dont_download)
    /\ (priorities_distinct L ->
        (Nat.b2n (AddTorrentDialog.maximum checks)
         + Nat.b2n (AddTorrentDialog.normal checks)
         + Nat.b2n (AddTorrentDialog.low checks)
         + Nat.b2n (AddTorrentDialog.do_not_download checks) <= 1)%nat).
Proof.
  intros Hnn Hbound. eexists.
  split; [apply priority_menu_checks_in_bounds; assumption|].
  cbn [AddTorrentDialog.maximum AddTorrentDialog.normal AddTorrentDialog.low
         AddTorrentDialog.do_not_download].
  split; [apply all_same_priority|]. split; [apply all_same_priority|].
  split; [apply all_same_priority|]. split; [apply all_same_priority|].
  intros Hdistinct. unfold priorities_distinct in Hdistinct.
  apply NoDup_cons in Hdistinct as [Htop Hdistinct].
  apply NoDup_cons in Hdistinct as [Hdefault Hdistinct].
  apply NoDup_cons in Hdistinct as [Hlow _].
  repeat setoid_rewrite not_elem_of_cons in Htop.
  repeat setoid_rewrite not_elem_of_cons in Hdefault.
  repeat setoid_rewrite not_elem_of_cons in Hlow.
  destruct (forallb _ _); [|simpl; lia]. cbn [andb].
  set (first := AddTorrentDialog.effective_priority fp (Z.to_nat idx)).
  destruct (Z.eqb_spec first lt.top_priority) as [Ht|_];
    destruct (Z.eqb_spec first lt.default_priority) as [Hd|_];
    destruct (Z.eqb_spec first lt.low_priority) as [Hl|_];
    destruct (Z.eqb_spec first lt.dont_download) as [Hn|_];
    simpl; try lia; exfalso; intuition congruence.
Qed.

(** X17. After the loop of [SetFilePriorities] has set the priority
    [prio] for a selection of files, none with a negative index, the
    priority menu for the same selection checks exactly the entries whose
    priority is [prio]. *)
Theorem priority_menu_after_set (prio : Z) (fp : list Z) (idx : Z)
  (rest : list Z) :
  nonnegative (idx :: rest) ->
  exists (fp' : list Z) (checks : AddTorrentDialog.priority_menu),
    AddTorrentDialog.SetFilePriorities_loop prio fp (idx :: rest)
    = completed fp'
    /\ AddTorrentDialog.priority_menu_checks fp' (idx :: rest) = Some checks
    /\ AddTorrentDialog.maximum checks = (prio =? lt.top_priority)
    /\ AddTorrentDialog.normal checks = (prio =? lt.default_priority)
    /\ AddTorrentDialog.low checks = (prio =? lt.low_priority)
    /\ AddTorrentDialog.do_not_download checks = (prio =? lt.dont_download).
Proof.
  intros Hnn.
  destruct (SetFilePriorities_loop_nonneg prio (idx :: rest) fp Hnn)
    as (fp' & Hloop & Hlen & Heff).
  assert (Hset : forall i : Z,
             i ∈ idx :: rest ->
             AddTorrentDialog.effective_priority fp' (Z.to_nat i) = prio).
  { intros i Hin. rewrite Heff. rewrite decide_True; [reflexivity|].
    rewrite Z2Nat.id; [exact Hin|].
    now apply (proj1 (Forall_forall _ _) Hnn). }
  assert (Hbound : fp' = [] \/ (Z.to_nat idx < length fp')%nat).
  { right. rewrite Hlen.
    pose proof (needed_size_ge (idx :: rest) idx) as Hneed.
    specialize (Hneed ltac:(apply elem_of_cons; now left)). lia. }
  exists fp'. eexists. split; [exact Hloop|].
  split; [apply priority_menu_checks_in_bounds; assumption|].
  cbn [AddTorrentDialog.maximum AddTorrentDialog.normal AddTorrentDialog.low
         AddTorrentDialog.do_not_download].
  assert (Hfirst : AddTorrentDialog.effective_priority fp' (Z.to_nat idx)
                   = prio) by (apply Hset; apply elem_of_cons; now left).
  assert (Hsame :
            forallb
              (fun i =>
                 AddTorrentDialog.effective_priority fp' (Z.to_nat idx)
                 =? AddTorrentDialog.effective_priority fp' (Z.to_nat i))
              (idx :: rest) = true).
  { apply forallb_forall. intros i Hin. apply list_elem_of_In in Hin.
    apply Z.eqb_eq. now rewrite Hfirst, (Hset i Hin). }
  rewrite Hsame, Hfirst. repeat split.
Qed.

End PriorityProperties.

(** X18. When one of the file indices is negative the loop of
    [SetFilePriorities] leaves by an exception at the first such index:
    the priorities of the indices before it have been set, nothing is set
    for it or for the indices after it, and when that index is -1 the
    priority vector has been emptied. *)
Theorem SetFilePriorities_negative_index {L : lt.library} (prio : Z)
  (fp before : list Z) (idx : Z) (after : list Z) :
  Forall (fun i : Z => 0 <= i) before ->
  idx < 0 ->
  exists fp1 : list Z,
    AddTorrentDialog.SetFilePriorities_loop prio fp before = completed fp1
    /\ AddTorrentDialog.SetFilePriorities_loop prio fp
         (before ++ idx :: after)
       = threw (if idx =? -1 then [] else fp1).
Proof.
  intros Hnn Hneg. revert fp.
  induction before as [|i before IH]; intros fp.
  - exists fp. split; [reflexivity|].
    cbn [app AddTorrentDialog.SetFilePriorities_loop].
    unfold AddTorrentDialog.SetFilePriorities_index.
    destruct (Z.ltb_spec idx (-1)) as [Hlow|Hhigh].
    + destruct (Z.eqb_spec idx (-1)); [lia|reflexivity].
    + destruct (Z.eqb_spec idx (-1)); [reflexivity|lia].
  - apply Forall_cons in Hnn as [Hi Hnn].
    destruct (SetFilePriorities_index_nonneg prio fp i Hi)
      as (fp0 & Hstep & _).
    destruct (IH Hnn fp0) as (fp1 & Hbefore & Hall).
    exists fp1. cbn [app AddTorrentDialog.SetFilePriorities_loop].
    rewrite Hstep. split; assumption.
Qed.

(** *** Metadata arriving *)

Section MetadataProperties.

Context {L : lt.library}.
Variable toHumanFileSize : Z -> string.
Variable ti : lt.torrent_info.t.

Local Abbreviation MetadataFound_at :=
  (AddTorrentDialog.MetadataFound_at toHumanFileSize ti).
Local Abbreviation MetadataFound_from :=
  (AddTorrentDialog.MetadataFound_from toHumanFileSize ti).

Lemma Load_widgets (d shown : AddTorrentDialog.dialog) (i : nat)
  (params : lt.add_torrent_params.t) :
  AddTorrentDialog.m_params d !! i = Some params ->
  AddTorrentDialog.Load toHumanFileSize d i = completed shown ->
  AddTorrentDialog.m_params shown = AddTorrentDialog.m_params d
  /\ AddTorrentDialog.m_torrents shown = AddTorrentDialog.m_torrents d
  /\ AddTorrentDialog.selection shown = AddTorrentDialog.selection d
  /\ widgets shown
     = widgets_for toHumanFileSize params (AddTorrentDialog.m_filesModel d).
Proof.
  intros Hlook. unfold AddTorrentDialog.Load. rewrite Hlook.
  intros [= <-]. repeat split.
Qed.

(** One round of the loop. *)
Lemma MetadataFound_at_spec (d : AddTorrentDialog.dialog) (i : nat) :
  let d1 := MetadataFound_at d i in
  AddTorrentDialog.selection d1 = AddTorrentDialog.selection d
  /\ AddTorrentDialog.m_params d1
     = match AddTorrentDialog.m_params d !! i with
       | Some params =>
           <[i := with_metadata ti params]> (AddTorrentDialog.m_params d)
       | None => AddTorrentDialog.m_params d
       end
  /\ AddTorrentDialog.m_torrents d1
     = match AddTorrentDialog.m_params d !! i with
       | Some params =>
           if metadata_of ti params
           then <[i := lt.torrent_info.name ti]>
                  (AddTorrentDialog.m_torrents d)
           else AddTorrentDialog.m_torrents d
       | None => AddTorrentDialog.m_torrents d
       end
  /\ widgets d1
     = match AddTorrentDialog.m_params d !! i with
       | Some params =>
           if metadata_of ti params
              && (Z.of_nat i =? AddTorrentDialog.selection d)
           then widgets_for toHumanFileSize (with_metadata ti params)
                  (AddTorrentDialog.m_filesModel d)
           else widgets d
       | None => widgets d
       end.
Proof.
  intros d1. subst d1. unfold AddTorrentDialog.MetadataFound_at.
  destruct (AddTorrentDialog.m_params d !! i) as [params|] eqn:Hlook;
    [|repeat split].
  unfold with_metadata, metadata_of.
  destruct (lt.info_hash_eqb _ _) eqn:Hmatch.
  - cbn [andb AddTorrentDialog.selection AddTorrentDialog.with_m_torrents
           AddTorrentDialog.with_m_params].
    destruct (Z.of_nat i =? AddTorrentDialog.selection d); [|repeat split].
    unfold AddTorrentDialog.Load.
    cbn [AddTorrentDialog.m_params AddTorrentDialog.with_m_torrents
           AddTorrentDialog.with_m_params].
    rewrite list_lookup_insert_eq by (now apply lookup_lt_Some in Hlook).
    repeat split.
  - cbn [andb]. repeat split. symmetry. now apply list_insert_id.
Qed.

(** The rounds [i], ..., [i + count - 1] of the loop. *)
Lemma MetadataFound_from_spec (count : nat) :
  forall (i : nat) (d : AddTorrentDialog.dialog),
    let d' := MetadataFound_from count i d in
    AddTorrentDialog.selection d' = AddTorrentDialog.selection d
    /\ (forall j : nat,
           AddTorrentDialog.m_params d' !! j =
             if decide (i <= j < i + count)%nat
             then with_metadata ti <$> AddTorrentDialog.m_params d !! j
             else AddTorrentDialog.m_params d !! j)
    /\ (forall j : nat,
           AddTorrentDialog.m_torrents d' !! j =
             match AddTorrentDialog.m_params d !! j with
             | Some params =>
                 if decide (i <= j < i + count)%nat
                 then if metadata_of ti params
                      then (fun _ => lt.torrent_info.name ti)
                           <$> AddTorrentDialog.m_torrents d !! j
                      else AddTorrentDialog.m_torrents d !! j
                 else AddTorrentDialog.m_torrents d !! j
             | None => AddTorrentDialog.m_torrents d !! j
             end)
    /\ widgets d'
       = match AddTorrentDialog.m_params d
               !! Z.to_nat (AddTorrentDialog.selection d) with
         | Some params =>
             if decide (Z.of_nat i <= AddTorrentDialog.selection d
                        < Z.of_nat (i + count))
             then if metadata_of ti params
                  then widgets_for toHumanFileSize (with_metadata ti params)
                         (AddTorrentDialog.m_filesModel d)
                  else widgets d
             else widgets d
         | None => widgets d
         end.
Proof.
  induction count as [|count IH]; intros i d d'; subst d'.
  - cbn [AddTorrentDialog.MetadataFound_from]. split; [reflexivity|].
    split; [|split].
    + intros j. rewrite decide_False by lia. reflexivity.
    + intros j. destruct (AddTorrentDialog.m_params d !! j);
        [|reflexivity]. rewrite decide_False by lia. reflexivity.
    + destruct (AddTorrentDialog.m_params d !! _); [|reflexivity].
      rewrite decide_False by lia. reflexivity.
  - cbn [AddTorrentDialog.MetadataFound_from].
    destruct (IH (S i) (MetadataFound_at d i))
      as (Hsel & Hparams & Hlabels & Hwidgets).
    destruct (MetadataFound_at_spec d i)
      as (Hsel1 & Hparams1 & Hlabels1 & Hwidgets1).
    cbv zeta in Hsel1, Hparams1, Hlabels1, Hwidgets1.
    assert (Hstep_params : forall j : nat,
               AddTorrentDialog.m_params (MetadataFound_at d i) !! j =
                 if decide (j = i)
                 then with_metadata ti <$> AddTorrentDialog.m_params d !! j
                 else AddTorrentDialog.m_params d !! j).
    { intros j. rewrite Hparams1.
      destruct (AddTorrentDialog.m_params d !! i) as [params|] eqn:Hi.
      - destruct (decide (j = i)) as [->|Hne].
        + rewrite Hi. cbn. apply list_lookup_insert_eq.
          now apply lookup_lt_Some in Hi.
        + apply list_lookup_insert_ne. congruence.
      - destruct (decide (j = i)) as [->|Hne]; [|reflexivity].
        now rewrite Hi. }
    split; [congruence|]. split; [|split].
    + intros j. rewrite Hparams, Hstep_params.
      destruct (decide (j = i)) as [->|Hne].
      * rewrite decide_False by lia. rewrite decide_True by lia.
        reflexivity.
      * destruct (decide (S i <= j < S i + count)%nat).
        -- rewrite decide_True by lia. reflexivity.
        -- rewrite decide_False by lia. reflexivity.
    + intros j. rewrite Hlabels, Hstep_params, Hlabels1.
      destruct (decide (j = i)) as [->|Hne].
      * destruct (AddTorrentDialog.m_params d !! i) as [params|] eqn:Hi;
          [|reflexivity].
        cbn [fmap option_fmap option_map].
        rewrite decide_False by lia. rewrite decide_True by lia.
        destruct (metadata_of ti params); [|reflexivity].
        destruct (AddTorrentDialog.m_torrents d !! i) as [label|] eqn:Hl.
        -- cbn. apply list_lookup_insert_eq.
           now apply lookup_lt_Some in Hl.
        -- cbn. apply lookup_ge_None. rewrite length_insert.
           now apply lookup_ge_None in Hl.
      * assert (Hother :
                  match AddTorrentDialog.m_params d !! i with
                  | Some params =>
                      if metadata_of ti params
                      then <[i := lt.torrent_info.name ti]>
                             (AddTorrentDialog.m_torrents d)
                      else AddTorrentDialog.m_torrents d
                  | None => AddTorrentDialog.m_torrents d
                  end !! j = AddTorrentDialog.m_torrents d !! j).
        { destruct (AddTorrentDialog.m_params d !! i) as [params|];
            [|reflexivity].
          destruct (metadata_of ti params); [|reflexivity].
          apply list_lookup_insert_ne. congruence. }
        rewrite Hother.
        destruct (AddTorrentDialog.m_params d !! j) as [params|];
          [|reflexivity].
        destruct (decide (S i <= j < S i + count)%nat).
        -- rewrite decide_True by lia. reflexivity.
        -- rewrite decide_False by lia. reflexivity.
    + rewrite Hwidgets, Hsel1, Hstep_params.
      set (sel := AddTorrentDialog.selection d) in *.
      destruct (decide (Z.to_nat sel = i)) as [Hat|Hnot].
      * destruct (AddTorrentDialog.m_params d !! Z.to_nat sel)
          as [params|] eqn:Hlook; cbn [fmap option_fmap option_map].
        -- rewrite decide_False by lia. rewrite Hwidgets1.
           rewrite <- Hat, Hlook.
           destruct (decide (Z.of_nat (Z.to_nat sel) <= sel
                             < Z.of_nat (Z.to_nat sel + S count)))
             as [Hin|Hout].
           ++ assert ((Z.of_nat (Z.to_nat sel) =? sel) = true) as ->
                by (apply Z.eqb_eq; lia).
              now rewrite andb_true_r.
           ++ assert ((Z.of_nat (Z.to_nat sel) =? sel) = false) as ->
                by (apply Z.eqb_neq; lia).
              rewrite andb_false_r.
              now destruct (metadata_of ti params).
        -- rewrite Hwidgets1. rewrite <- Hat, Hlook. reflexivity.
      * assert (Hkeep : widgets (MetadataFound_at d i) = widgets d
                        /\ AddTorrentDialog.m_filesModel (MetadataFound_at d i)
                           = AddTorrentDialog.m_filesModel d).
        { assert (Hw : widgets (MetadataFound_at d i) = widgets d).
          { rewrite Hwidgets1.
            destruct (AddTorrentDialog.m_params d !! i) as [params|];
              [|reflexivity].
            destruct (Z.eqb_spec (Z.of_nat i) sel) as [Heq|Hne];
              [exfalso; apply Hnot; lia|].
            now rewrite andb_false_r. }
          split; [exact Hw|]. unfold widgets in Hw. congruence. }
        destruct Hkeep as [Hw Hcalls]. rewrite Hw, Hcalls.
        destruct (AddTorrentDialog.m_params d !! Z.to_nat sel)
          as [params|]; [|reflexivity].
        destruct (decide (Z.of_nat (S i) <= sel < Z.of_nat (S i + count)))
          as [Hin|Hout].
        -- rewrite decide_True by lia. reflexivity.
        -- assert (Hneg : sel < 0 \/ 0 <= sel) by lia.
           destruct (decide (Z.of_nat i <= sel < Z.of_nat (i + S count)))
             as [Hin'|Hout']; [|reflexivity].
           exfalso. apply Hnot. lia.
Qed.

(** X19. [MetadataFound] gives the metadata to every torrent whose info
    hashes equal those of the metadata and leaves every other torrent, the
    number of torrents and the selection as they are. When the entries of
    the chooser were the display names of the torrents before, they are so
    afterwards. When the selected torrent is one the metadata belongs to,
    the labels, inputs and file model hold what [Load] shows for it with
    its metadata; otherwise they hold what they held before. *)
Theorem MetadataFound_attaches (d : AddTorrentDialog.dialog) :
  let d' := AddTorrentDialog.MetadataFound toHumanFileSize d ti in
  AddTorrentDialog.m_params d'
  = map (with_metadata ti) (AddTorrentDialog.m_params d)
  /\ AddTorrentDialog.selection d' = AddTorrentDialog.selection d
  /\ (AddTorrentDialog.m_torrents d
      = map AddTorrentDialog.GetTorrentDisplayName
          (AddTorrentDialog.m_params d) ->
      AddTorrentDialog.m_torrents d'
      = map AddTorrentDialog.GetTorrentDisplayName
          (AddTorrentDialog.m_params d'))
  /\ widgets d'
     = match AddTorrentDialog.at_int (AddTorrentDialog.m_params d)
               (AddTorrentDialog.selection d) with
       | Some params =>
           if metadata_of ti params
           then widgets_for toHumanFileSize
                  (lt.add_torrent_params.with_ti params (Some ti))
                  (AddTorrentDialog.m_filesModel d)
           else widgets d
       | None => widgets d
       end.
Proof.
  intros d'. subst d'. unfold AddTorrentDialog.MetadataFound.
  destruct (MetadataFound_from_spec (length (AddTorrentDialog.m_params d))
              0 d) as (Hsel & Hparams & Hlabels & Hwidgets).
  cbv zeta in Hsel, Hparams, Hlabels, Hwidgets.
  assert (Hmap : AddTorrentDialog.m_params
                   (MetadataFound_from
                      (length (AddTorrentDialog.m_params d)) 0 d)
                 = map (with_metadata ti) (AddTorrentDialog.m_params d)).
  { apply list_eq. intros j. rewrite Hparams, list_lookup_fmap.
    destruct (decide (0 <= j < 0 + length (AddTorrentDialog.m_params d))%nat)
      as [Hin|Hout]; [reflexivity|].
    rewrite lookup_ge_None_2 by lia. reflexivity. }
  split; [exact Hmap|]. split; [exact Hsel|]. split.
  - intros Hsync. rewrite Hmap. apply list_eq. intros j.
    rewrite Hlabels, Hsync, !list_lookup_fmap.
    destruct (AddTorrentDialog.m_params d !! j) as [params|] eqn:Hj;
      [|reflexivity].
    cbn [fmap option_fmap option_map].
    apply lookup_lt_Some in Hj.
    rewrite decide_True by lia.
    unfold with_metadata. destruct (metadata_of ti params); reflexivity.
  - rewrite Hwidgets. unfold AddTorrentDialog.at_int.
    set (sel := AddTorrentDialog.selection d) in *.
    destruct (Z.ltb_spec sel 0) as [Hneg|Hpos].
    + destruct (AddTorrentDialog.m_params d !! Z.to_nat sel) as [params|];
        [|reflexivity].
      rewrite decide_False by lia. reflexivity.
    + destruct (AddTorrentDialog.m_params d !! Z.to_nat sel)
        as [params|] eqn:Hlook; [|reflexivity].
      apply lookup_lt_Some in Hlook. rewrite decide_True by lia.
      unfold with_metadata. now destruct (metadata_of ti params).
Qed.

End MetadataProperties.

(** ** The further properties at the reference instances *)

Lemma on_open_on_close_round_trip_witness :
  (3%positive ∉ connections_ sample.server)
  /\ on_close (on_open sample.server 3%positive) 3%positive = sample.server.
Proof.
  assert (Hout : 3%positive ∉ connections_ sample.server)
    by apply not_elem_of_empty.
  split; [exact Hout|].
  exact (proj1 (proj1 (on_open_on_close_round_trip sample.server 3%positive)
                  Hout)).
Defined.

Lemma on_tls_init_again_witness :
  is_Some (files (snd (sample_on_tls_init sample.server 1%positive
                         sample.fresh_install)) !! "PicoTorrent.pem")
  /\ sample_on_tls_init sample.server 2%positive
       (snd (sample_on_tls_init sample.server 1%positive
               sample.fresh_install))
     = sample_on_tls_init sample.server 1%positive sample.fresh_install.
Proof.
  assert (Hfile : is_Some
                    (files (snd (sample_on_tls_init sample.server 1%positive
                                   sample.fresh_install))
                       !! websocket_certificate_file
                            (config sample.fresh_install)))
    by (eexists; vm_compute; reflexivity).
  split; [exact Hfile|].
  exact (on_tls_init_again sample.ofstream_opens
           sample.certificate_manager_generate unit tt
           sample.pem_certificate_chain sample.pem_private_key
           sample.SSL_OP_ALL sample.SSL_OP_NO_SSLv2
           sample.SSL_OP_NO_SSLv3 sample.SSL_OP_NO_TLSv1
           sample.SSL_OP_SINGLE_DH_USE
           sample.server sample.server 1%positive 2%positive
           sample.fresh_install Hfile).
Defined.

Lemma on_tls_init_returns_loaded_certificate_witness :
  exists ctx : ssl_context unit,
    fst (sample_on_tls_init sample.server 1%positive sample.provisioned)
    = Returns ctx
    /\ certificate_chain ctx = Some "-----BEGIN CERTIFICATE-----"
    /\ private_key ctx = Some "-----BEGIN CERTIFICATE-----".
Proof.
  assert (Hrun : { ctx : ssl_context unit
                   | fst (sample_on_tls_init sample.server 1%positive
                            sample.provisioned) = Returns ctx }).
  { eexists. cbv. reflexivity. }
  destruct Hrun as [ctx Hrun]. exists ctx. split; [exact Hrun|].
  destruct (proj1 (on_tls_init_returns_loaded_certificate
                     sample.ofstream_opens
                     sample.certificate_manager_generate unit tt
                     sample.pem_certificate_chain sample.pem_private_key
                     sample.SSL_OP_ALL sample.SSL_OP_NO_SSLv2
                     sample.SSL_OP_NO_SSLv3 sample.SSL_OP_NO_TLSv1
                     sample.SSL_OP_SINGLE_DH_USE
                     sample.server 1%positive sample.provisioned) ctx Hrun)
    as (pem & Hfile & _ & _ & _ & Hchain & Hkey & _).
  assert (Hpem : pem = "-----BEGIN CERTIFICATE-----").
  { vm_compute in Hfile. now injection Hfile as <-. }
  rewrite Hchain, Hkey, Hpem. split; reflexivity.
Defined.

Lemma OnCmdLineParsed_sorts_parameters_witness :
  paths_resolve sample_torrents.absolute ["a.torrent"; "magnet:?xt=urn:btih:12ab"]
  /\ Application.OnCmdLineParsed sample_torrents.absolute
       {| Application.files := []; Application.magnets := [] |}
       ["a.torrent"; "magnet:?xt=urn:btih:12ab"; ""; "b.torrent"]
     = Application.thrown
         {| Application.files := ["C:\PicoTorrent\a.torrent"];
            Application.magnets := ["magnet:?xt=urn:btih:12ab"] |}.
Proof.
  assert (Hok : paths_resolve sample_torrents.absolute
                  ["a.torrent"; "magnet:?xt=urn:btih:12ab"]).
  { repeat constructor.
    - intros _. eexists. reflexivity.
    - intros Hnot. discriminate Hnot. }
  split; [exact Hok|].
  exact (proj2 (proj2 (OnCmdLineParsed_sorts_parameters
                         sample_torrents.absolute
                         {| Application.files := [];
                            Application.magnets := [] |}
                         ["a.torrent"; "magnet:?xt=urn:btih:12ab"] Hok))
           "" ["b.torrent"] eq_refl eq_refl).
Defined.

Lemma sample_torrent_flag_bits : torrent_flag_bits sample_torrents.libtorrent.
Proof.
  unfold torrent_flag_bits, single_bit. simpl.
  split; [exists 4; split; [lia|reflexivity]|].
  split; [exists 5; split; [lia|reflexivity]|].
  split; [exists 9; split; [lia|reflexivity]|].
  repeat split; discriminate.
Qed.

Lemma sample_priorities_distinct :
  priorities_distinct sample_torrents.libtorrent.
Proof.
  unfold priorities_distinct. simpl.
  repeat (apply NoDup_cons; split;
          [rewrite ?not_elem_of_cons; repeat split;
           try discriminate; apply not_elem_of_nil|]).
  apply NoDup_nil. trivial.
Qed.

Lemma start_check_box_round_trip_witness :
  torrent_flag_bits sample_torrents.libtorrent
  /\ AddTorrentDialog.at_int
       (AddTorrentDialog.m_params sample_torrents.dialog)
       (AddTorrentDialog.selection sample_torrents.dialog)
     = Some sample_torrents.magnet
  /\ exists d' shown : AddTorrentDialog.dialog,
       @AddTorrentDialog.OnStartTorrent sample_torrents.libtorrent
         sample_torrents.dialog = completed d'
       /\ @AddTorrentDialog.Load sample_torrents.libtorrent
            sample_torrents.toHumanFileSize d' 0 = completed shown
       /\ AddTorrentDialog.m_startTorrent shown = true.
Proof.
  split; [exact sample_torrent_flag_bits|]. split; [reflexivity|].
  destruct (@start_check_box_round_trip sample_torrents.libtorrent
              sample_torrents.toHumanFileSize sample_torrents.dialog
              sample_torrents.magnet sample_torrent_flag_bits eq_refl)
    as (d' & shown & Hrun & Hload & Hstart & _).
  exists d', shown. split; [exact Hrun|]. split; [exact Hload|exact Hstart].
Defined.

Lemma sequential_check_box_round_trip_witness :
  torrent_flag_bits sample_torrents.libtorrent
  /\ AddTorrentDialog.at_int
       (AddTorrentDialog.m_params sample_torrents.dialog)
       (AddTorrentDialog.selection sample_torrents.dialog)
     = Some sample_torrents.magnet
  /\ exists d' shown : AddTorrentDialog.dialog,
       @AddTorrentDialog.OnSequentialDownload sample_torrents.libtorrent
         sample_torrents.dialog = completed d'
       /\ @AddTorrentDialog.Load sample_torrents.libtorrent
            sample_torrents.toHumanFileSize d' 0 = completed shown
       /\ AddTorrentDialog.m_sequentialDownload shown = true
       /\ AddTorrentDialog.m_startTorrent shown = false.
Proof.
  split; [exact sample_torrent_flag_bits|]. split; [reflexivity|].
  destruct (@sequential_check_box_round_trip sample_torrents.libtorrent
              sample_torrents.toHumanFileSize sample_torrents.dialog
              sample_torrents.magnet sample_torrent_flag_bits eq_refl)
    as (d' & shown & Hrun & Hload & Hseq & Hstart & _).
  exists d', shown. split; [exact Hrun|]. split; [exact Hload|].
  split; [exact Hseq|exact Hstart].
Defined.

Lemma start_handler_sets_one_flag_witness :
  torrent_flag_bits sample_torrents.libtorrent
  /\ exists flags' : Z,
       @AddTorrentDialog.OnStartTorrent sample_torrents.libtorrent
         sample_torrents.dialog
       = completed
           (AddTorrentDialog.with_m_params sample_torrents.dialog
              [lt.add_torrent_params.with_flags sample_torrents.magnet
                 flags'])
       /\ lt.has_flag flags' (2 ^ 5) = true
       /\ lt.has_flag flags' (2 ^ 4) = false.
Proof.
  split; [exact sample_torrent_flag_bits|].
  destruct (@start_handler_sets_one_flag sample_torrents.libtorrent
              sample_torrents.dialog sample_torrent_flag_bits)
    as (flags' & Hrun & Hauto & Hpaused & _).
  exists flags'. split; [exact Hrun|]. split; [exact Hauto|exact Hpaused].
Defined.

Lemma SetFilePriorities_effective_witness :
  Forall (fun idx : Z => 0 <= idx) (sample_torrents.GetFileIndices [2; 0]%nat)
  /\ exists fp' : list Z,
       @AddTorrentDialog.SetFilePriorities sample_torrents.libtorrent nat
         sample_torrents.GetFileIndices sample_torrents.dialog [2; 0]%nat 7
       = completed
           (AddTorrentDialog.with_m_params sample_torrents.dialog
              [lt.add_torrent_params.with_file_priorities
                 sample_torrents.magnet fp'])
       /\ @AddTorrentDialog.effective_priority sample_torrents.libtorrent
            fp' 1 = 4
       /\ @AddTorrentDialog.effective_priority sample_torrents.libtorrent
            fp' 2 = 7.
Proof.
  assert (Hnn : Forall (fun idx : Z => 0 <= idx)
                  (sample_torrents.GetFileIndices [2; 0]%nat))
    by (repeat constructor; simpl; lia).
  split; [exact Hnn|].
  destruct (@SetFilePriorities_effective sample_torrents.libtorrent nat
              sample_torrents.GetFileIndices sample_torrents.dialog
              sample_torrents.magnet [2; 0]%nat 7 eq_refl Hnn)
    as (fp' & Hrun & Heff).
  exists fp'. split; [exact Hrun|]. split.
  - rewrite Heff. reflexivity.
  - rewrite Heff. reflexivity.
Defined.

Lemma SetFilePriorities_grows_once_witness :
  Forall (fun idx : Z => 0 <= idx) [2; 0]
  /\ exists fp' : list Z,
       @AddTorrentDialog.SetFilePriorities_loop sample_torrents.libtorrent
         1 [7] [2; 0] = completed fp'
       /\ length fp' = 3%nat.
Proof.
  assert (Hnn : Forall (fun idx : Z => 0 <= idx) [2; 0])
    by (repeat constructor; lia).
  split; [exact Hnn|].
  destruct (@SetFilePriorities_grows_once sample_torrents.libtorrent
              1 [7] [2; 0] Hnn) as (fp' & Hrun & Hlen & _).
  exists fp'. split; [exact Hrun|exact Hlen].
Defined.

Lemma priority_menu_checks_all_same_witness :
  Forall (fun idx : Z => 0 <= idx) [0; 2]
  /\ exists checks : AddTorrentDialog.priority_menu,
       @AddTorrentDialog.priority_menu_checks sample_torrents.libtorrent
         [4; 1] [0; 2] = Some checks
       /\ (Nat.b2n (AddTorrentDialog.maximum checks)
           + Nat.b2n (AddTorrentDialog.normal checks)
           + Nat.b2n (AddTorrentDialog.low checks)
           + Nat.b2n (AddTorrentDialog.do_not_download checks) <= 1)%nat.
Proof.
  assert (Hnn : Forall (fun idx : Z => 0 <= idx) [0; 2])
    by (repeat constructor; lia).
  split; [exact Hnn|].
  assert (Hbound : [4; 1] = [] \/ (Z.to_nat 0 < length [4; 1])%nat)
    by (right; simpl; lia).
  destruct (@priority_menu_checks_all_same sample_torrents.libtorrent
              [4; 1] 0 [2] Hnn Hbound)
    as (checks & Hchecks & _ & _ & _ & _ & Hone).
  exists checks. split; [exact Hchecks|].
  exact (Hone sample_priorities_distinct).
Defined.

Lemma priority_menu_after_set_witness :
  Forall (fun idx : Z => 0 <= idx) [3; 1]
  /\ exists (fp' : list Z) (checks : AddTorrentDialog.priority_menu),
       @AddTorrentDialog.SetFilePriorities_loop sample_torrents.libtorrent
         1 [] [3; 1] = completed fp'
       /\ @AddTorrentDialog.priority_menu_checks sample_torrents.libtorrent
            fp' [3; 1] = Some checks
       /\ AddTorrentDialog.low checks = true
       /\ AddTorrentDialog.normal checks = false.
Proof.
  assert (Hnn : Forall (fun idx : Z => 0 <= idx) [3; 1])
    by (repeat constructor; lia).
  split; [exact Hnn|].
  destruct (@priority_menu_after_set sample_torrents.libtorrent 1 [] 3 [1]
              Hnn)
    as (fp' & checks & Hrun & Hchecks & _ & Hnormal & Hlow & _).
  exists fp', checks. split; [exact Hrun|]. split; [exact Hchecks|].
  split; [exact Hlow|exact Hnormal].
Defined.

Lemma SetFilePriorities_negative_index_witness :
  Forall (fun i : Z => 0 <= i) [1]
  /\ -1 < 0
  /\ @AddTorrentDialog.SetFilePriorities_loop sample_torrents.libtorrent
       7 [1; 1; 1] [1; -1; 2] = threw [].
Proof.
  assert (Hnn : Forall (fun i : Z => 0 <= i) [1])
    by (repeat constructor; lia).
  split; [exact Hnn|]. split; [lia|].
  destruct (@SetFilePriorities_negative_index sample_torrents.libtorrent
              7 [1; 1; 1] [1] (-1) [2] Hnn ltac:(lia))
    as (fp1 & _ & Hthrew).
  exact Hthrew.
Defined.
